(** * DiamondBCH: the off-chain transaction builders

    A shallow embedding of the TypeScript client scripts of the DiamondBCH
    DeFi hub (staking, unstaking, yield splitting and the DEX facet) and
    the properties of their commitment codec and of the transactions they
    assemble.

    The scripts read their parameters from the process environment, look
    up token-carrying outputs at an address, compute the commitments of
    the outputs of the next transaction and hand the assembled transaction
    to the covenant contract with [send].  The embedding keeps this
    shape: a handler is a function from the values it binds at entry
    (the parsed environment variables and the unspent outputs returned by
    the network provider) to an [outcome], which is either the
    transaction it sends, the [process.exit(1)] it performs, or the
    exception that escapes to the [catch] of [main].  The CashScript
    contracts themselves are not part of the embedded sources. *)

From Stdlib Require Import ZArith QArith Qround List String Ascii Bool Lia Sorted.
Import ListNotations.

Local Open Scope string_scope.
Local Open Scope Z_scope.

(* ================================================================= *)
(** ** JavaScript values *)

(** Exceptions the scripts can raise through the built-ins they use. *)
Inductive exn : Type :=
| RangeError    (* Buffer writes out of range, BigInt of a non-integer *)
| SyntaxError.  (* BigInt of a string that is not an integer literal *)

Inductive result (A : Type) : Type :=
| Ok (a : A)
| Throw (e : exn).

Arguments Ok {A} a.
Arguments Throw {A} e.

Definition bind {A B : Type} (c : result A) (k : A -> result B) : result B :=
  match c with
  | Ok a => k a
  | Throw e => Throw e
  end.

Notation "x <- c ;; k" := (bind c (fun x => k))
  (at level 61, c at next level, right associativity).

(** A [bigint] is an unbounded integer: [Z].

    A [number] is a double.  The numbers of these scripts are the results
    of [parseInt], of [Number] applied to a bigint, and of one product
    and one quotient of such values, so a finite number is represented by
    the rational it denotes and [NaN] is kept apart.  Rounding to 53 bits
    is not represented: the embedding agrees with the scripts while the
    integers involved stay below [2^53] in magnitude, and the statements
    that compute with numbers carry that bound.  The infinities are not
    represented either; the one place where one could arise, a quotient,
    only feeds [BigInt], which rejects an infinity exactly as it rejects
    [NaN]. *)
Inductive number : Type :=
| NaN
| Fin (q : Q).

Definition num (z : Z) : number := Fin (inject_Z z).

Definition Qltb (x y : Q) : bool := Qnum x * QDen y <? Qnum y * QDen x.

(** [a < b], [a >= b] and [a === b] on numbers: every comparison with
    [NaN] is false. *)
Definition num_lt (a b : number) : bool :=
  match a, b with
  | Fin x, Fin y => Qltb x y
  | _, _ => false
  end.

Definition num_ge (a b : number) : bool :=
  match a, b with
  | Fin x, Fin y => negb (Qltb x y)
  | _, _ => false
  end.

Definition num_eq (a b : number) : bool :=
  match a, b with
  | Fin x, Fin y => Qeq_bool x y
  | _, _ => false
  end.

Definition num_add (a b : number) : number :=
  match a, b with
  | Fin x, Fin y => Fin (x + y)%Q
  | _, _ => NaN
  end.

Definition num_sub (a b : number) : number :=
  match a, b with
  | Fin x, Fin y => Fin (x - y)%Q
  | _, _ => NaN
  end.

Definition num_mul (a b : number) : number :=
  match a, b with
  | Fin x, Fin y => Fin (x * y)%Q
  | _, _ => NaN
  end.

Definition num_div (a b : number) : number :=
  match a, b with
  | Fin x, Fin y => if Qeq_bool y 0 then NaN else Fin (x / y)%Q
  | _, _ => NaN
  end.

(** [Number(b)] for a bigint [b]. *)
Definition Number_of_bigint (b : Z) : number := num b.

(** [BigInt(x)] for a number [x]: a [RangeError] unless [x] is an
    integer. *)
Definition BigInt_of_number (x : number) : result Z :=
  match x with
  | NaN => Throw RangeError
  | Fin q =>
      if Qnum q mod QDen q =? 0 then Ok (Qnum q / QDen q)
      else Throw RangeError
  end.

(* ================================================================= *)
(** ** Strings: [slice], [parseInt] and [BigInt] *)

Definition code (c : ascii) : Z := Z.of_N (N_of_ascii c).

(** White space and line terminators among the code units below 256. *)
Definition is_white_space (c : ascii) : bool :=
  let n := code c in
  ((9 <=? n) && (n <=? 13)) || (n =? 32) || (n =? 160).

Fixpoint trim_left (s : string) : string :=
  match s with
  | EmptyString => EmptyString
  | String c r => if is_white_space c then trim_left r else s
  end.

Fixpoint trim_right (s : string) : string :=
  match s with
  | EmptyString => EmptyString
  | String c r =>
      match trim_right r with
      | EmptyString => if is_white_space c then EmptyString
                       else String c EmptyString
      | r' => String c r'
      end
  end.

Definition trim (s : string) : string := trim_right (trim_left s).

(** [s.slice(a, b)] for the literal, non-negative bounds of the scripts. *)
Definition slice (s : string) (a b : nat) : string := substring a (b - a) s.

(** The value of a digit or letter, as [parseInt] and the integer
    literals read it. *)
Definition digit_value (c : ascii) : option Z :=
  let n := code c in
  if (48 <=? n) && (n <=? 57) then Some (n - 48)
  else if (97 <=? n) && (n <=? 122) then Some (n - 87)
  else if (65 <=? n) && (n <=? 90) then Some (n - 55)
  else None.

Definition radix_digit (radix : Z) (c : ascii) : option Z :=
  match digit_value c with
  | Some d => if d <? radix then Some d else None
  | None => None
  end.

(** The longest prefix of [s] made of digits of the radix, and what is
    left of [s] after it. *)
Fixpoint take_digits (radix : Z) (s : string) : list Z * string :=
  match s with
  | EmptyString => ([], EmptyString)
  | String c r =>
      match radix_digit radix c with
      | Some d => let (ds, rest) := take_digits radix r in (d :: ds, rest)
      | None => ([], s)
      end
  end.

Definition digits_value (radix : Z) (ds : list Z) : Z :=
  fold_left (fun acc d => acc * radix + d) ds 0.

Definition strip_sign (s : string) : Z * string :=
  match s with
  | String "-"%char r => (-1, r)
  | String "+"%char r => (1, r)
  | _ => (1, s)
  end.

Definition strip_hex_prefix (s : string) : option string :=
  match s with
  | String "0"%char (String c r) =>
      if (c =? "x")%char || (c =? "X")%char then Some r else None
  | _ => None
  end.

(** [parseInt(s, radix)]; [radix = 0] stands for an absent radix. *)
Definition parseInt (s : string) (radix : Z) : number :=
  let (sign, s1) := strip_sign (trim_left s) in
  if negb (radix =? 0) && ((radix <? 2) || (36 <? radix)) then NaN
  else
    let r0 := if radix =? 0 then 10 else radix in
    let strip := (radix =? 0) || (radix =? 16) in
    let (r, s2) :=
      match (if strip then strip_hex_prefix s1 else None) with
      | Some rest => (16, rest)
      | None => (r0, s1)
      end in
    match fst (take_digits r s2) with
    | [] => NaN
    | ds => num (sign * digits_value r ds)
    end.

(** A string that is, in full, a non-empty run of digits of the radix. *)
Definition all_digits (radix : Z) (s : string) : result Z :=
  match take_digits radix s with
  | (d :: ds, EmptyString) => Ok (digits_value radix (d :: ds))
  | _ => Throw SyntaxError
  end.

Definition radix_prefix (s : string) : option (Z * string) :=
  match s with
  | String "0"%char (String c r) =>
      if (c =? "x")%char || (c =? "X")%char then Some (16, r)
      else if (c =? "o")%char || (c =? "O")%char then Some (8, r)
      else if (c =? "b")%char || (c =? "B")%char then Some (2, r)
      else None
  | _ => None
  end.

(** [BigInt(s)] for a string [s]: white space is trimmed on both sides,
    the empty string is [0n], a prefixed literal has no sign, and anything
    else is a [SyntaxError]. *)
Definition BigInt_of_string (s : string) : result Z :=
  match trim s with
  | EmptyString => Ok 0
  | t =>
      match radix_prefix t with
      | Some (r, rest) => all_digits r rest
      | None =>
          let (sign, u) := strip_sign t in
          v <- all_digits 10 u ;; Ok (sign * v)
      end
  end.

(* ================================================================= *)
(** ** Buffers *)

(** A buffer is the list of its bytes, each in [0, 255]. *)
Definition buffer : Type := list Z.

Fixpoint le_bytes (n : nat) (v : Z) : buffer :=
  match n with
  | O => []
  | S k => Z.land v 255 :: le_bytes k (Z.shiftr v 8)
  end.

Definition be_bytes (n : nat) (v : Z) : buffer := rev (le_bytes n v).

(** [Buffer.alloc(8)] followed by [writeBigUInt64BE(value)]. *)
Definition writeBigUInt64BE (value : Z) : result buffer :=
  if (value <? 0) || (2 ^ 64 - 1 <? value) then Throw RangeError
  else Ok (be_bytes 8 value).

(** [Buffer.alloc(8)] followed by [writeBigUInt64LE(value)]. *)
Definition writeBigUInt64LE (value : Z) : result buffer :=
  if (value <? 0) || (2 ^ 64 - 1 <? value) then Throw RangeError
  else Ok (le_bytes 8 value).

(** [Buffer.alloc(4)] followed by [writeUInt32BE(value)]: the range check
    lets [NaN] through, which is then stored as zero bytes; a fraction is
    dropped by the byte stores. *)
Definition writeUInt32BE (value : number) : result buffer :=
  match value with
  | NaN => Ok (be_bytes 4 0)
  | Fin q =>
      if Qltb q 0 || Qltb (inject_Z (2 ^ 32 - 1)) q then Throw RangeError
      else Ok (be_bytes 4 (Qfloor q))
  end.

Definition hexdigit (d : Z) : ascii :=
  match d with
  | 0 => "0" | 1 => "1" | 2 => "2" | 3 => "3"
  | 4 => "4" | 5 => "5" | 6 => "6" | 7 => "7"
  | 8 => "8" | 9 => "9" | 10 => "a" | 11 => "b"
  | 12 => "c" | 13 => "d" | 14 => "e" | _ => "f"
  end%char.

Definition hex_of_byte (b : Z) : string :=
  String (hexdigit (Z.shiftr b 4)) (String (hexdigit (Z.land b 15)) EmptyString).

(** [buf.toString('hex')]. *)
Fixpoint toString_hex (bs : buffer) : string :=
  match bs with
  | [] => EmptyString
  | b :: r => hex_of_byte b ++ toString_hex r
  end.

(* ================================================================= *)
(** ** Unspent outputs, transactions and outcomes *)

Inductive capability : Type := cap_none | cap_mutable | cap_minting.

Definition capability_eqb (a b : capability) : bool :=
  match a, b with
  | cap_none, cap_none | cap_mutable, cap_mutable
  | cap_minting, cap_minting => true
  | _, _ => false
  end.

Record Nft : Type := mkNft {
  nft_capability : capability;
  nft_commitment : string }.

Record Token : Type := mkToken {
  tok_category : string;
  tok_amount : Z;
  tok_nft : option Nft }.

(** An unspent output as the network provider returns it, and also the
    shape of the inputs passed to [from]. *)
Record Utxo : Type := mkUtxo {
  utxo_txid : string;
  utxo_vout : Z;
  utxo_satoshis : Z;
  utxo_token : option Token }.

(** An entry of the list passed to [to]. *)
Record Output : Type := mkOutput {
  out_to : string;
  out_amount : Z;
  out_token : option Token }.

(** [u.token?.nft?.capability] *)
Definition capability_of (u : Utxo) : option capability :=
  match utxo_token u with
  | Some t => option_map nft_capability (tok_nft t)
  | None => None
  end.

Definition has_capability (c : capability) (u : Utxo) : bool :=
  match capability_of u with
  | Some c' => capability_eqb c' c
  | None => false
  end.

(** [u.token?.nft?.commitment || ''] *)
Definition commitment_of (u : Utxo) : string :=
  match utxo_token u with
  | Some t =>
      match tok_nft t with
      | Some n => nft_commitment n
      | None => EmptyString
      end
  | None => EmptyString
  end.

(** [u.token?.category], the empty string standing for [undefined];
    both are falsy and neither equals a real category. *)
Definition category_of (u : Utxo) : string :=
  match utxo_token u with
  | Some t => tok_category t
  | None => EmptyString
  end.

(** [!v] for an environment variable: unset or empty. *)
Definition unset (v : option string) : bool :=
  match v with
  | None => true
  | Some s => String.eqb s EmptyString
  end.

Definition env_eqb (s : string) (v : option string) : bool :=
  match v with
  | Some t => String.eqb s t
  | None => false
  end.

(** Why a script stopped with [process.exit(1)]; each constructor is one
    [console.error] site. *)
Inductive failure : Type :=
| MissingEnv            (* "Set ... env var" *)
| NftNotFound           (* "... NFT not found" *)
| NotYetMatured         (* "Cannot redeem yet! Expiry is ..." *)
| NoMintingNft          (* "No minting NFT found in contract" *)
| NoWalletUtxos         (* "No UTXOs found in user wallet" *)
| NoFundingUtxo         (* "No UTXO with enough balance" *)
| InsufficientReserve.  (* "Contract does not have enough BCH to unstake!" *)

Inductive outcome (T : Type) : Type :=
| Sent (tx : T)       (* the transaction reached [send] *)
| Exit (why : failure) (* [console.error] then [process.exit(1)] *)
| Caught (e : exn).    (* an exception reached the enclosing [catch] *)

Arguments Sent {T} tx.
Arguments Exit {T} why.
Arguments Caught {T} e.

(** Running the part of a handler that can throw. *)
Definition try {T : Type} (c : result (outcome T)) : outcome T :=
  match c with
  | Ok o => o
  | Throw e => Caught e
  end.

(* ================================================================= *)
(** ** yield-split.ts *)

Module YieldSplit.

Record PTData : Type := mkPT { principal : Z; pt_expiry : number }.
Record YTData : Type := mkYT { yieldAccrued : Z; yt_expiry : number }.

Definition parsePTCommitment (commitment : string) : result PTData :=
  principal <- BigInt_of_string ("0x" ++ slice commitment 0 16) ;;
  let expiry := parseInt (slice commitment 16 24) 16 in
  Ok (mkPT principal expiry).

Definition parseYTCommitment (commitment : string) : result YTData :=
  yieldAccrued <- BigInt_of_string ("0x" ++ slice commitment 0 16) ;;
  let expiry := parseInt (slice commitment 16 24) 16 in
  Ok (mkYT yieldAccrued expiry).

Definition buildPTCommitment (principal : Z) (expiry : number) : result string :=
  principalBytes <- writeBigUInt64BE principal ;;
  expiryBytes <- writeUInt32BE expiry ;;
  Ok (toString_hex principalBytes ++ toString_hex expiryBytes).

Definition buildYTCommitment (yieldAccrued : Z) (expiry : number) : result string :=
  yieldBytes <- writeBigUInt64BE yieldAccrued ;;
  expiryBytes <- writeUInt32BE expiry ;;
  Ok (toString_hex yieldBytes ++ toString_hex expiryBytes).

(** The contract function a transaction calls, with its arguments. *)
Inductive call : Type :=
| split (expiry : number)
| merge
| redeemPT (currentTime : number)
| claimYield (currentTime yieldRate : number).

Record Transaction : Type := mkTx {
  tx_call : call;
  tx_from : list Utxo;
  tx_to : list Output }.

(** The input built from a found NFT: its own outpoint and value, and a
    token with the same category, amount [0n] and an immutable NFT. *)
Definition nft_input (u : Utxo) (commitment : string) : Utxo :=
  mkUtxo (utxo_txid u) (utxo_vout u) (utxo_satoshis u)
    (Some (mkToken (category_of u) 0 (Some (mkNft cap_none commitment)))).

(** An output of 1000 satoshis carrying an immutable NFT. *)
Definition nft_output (to category commitment : string) : Output :=
  mkOutput to 1000 (Some (mkToken category 0 (Some (mkNft cap_none commitment)))).

(** [userUtxos.find(u => u.txid === txid && u.vout === vout &&
    u.token?.nft?.capability === 'none')] *)
Definition find_nft (userUtxos : list Utxo) (txid : option string) (vout : number)
  : option Utxo :=
  find (fun u => env_eqb (utxo_txid u) txid
                 && num_eq (num (utxo_vout u)) vout
                 && has_capability cap_none u) userUtxos.

Definition handleSplit (userUtxos : list Utxo) (ownerAddress : string)
    (nftTxId : option string) (nftVout expiry : number) : outcome Transaction :=
  if unset nftTxId then Exit MissingEnv
  else
    match find_nft userUtxos nftTxId nftVout with
    | None => Exit NftNotFound
    | Some nftUtxo =>
        let commitment := commitment_of nftUtxo in
        try (principal <- BigInt_of_string ("0x" ++ commitment) ;;
             ptCommitment <- buildPTCommitment principal expiry ;;
             ytCommitment <- buildYTCommitment 0 expiry ;;
             Ok (Sent (mkTx (split expiry)
                   [nft_input nftUtxo commitment]
                   [nft_output ownerAddress (category_of nftUtxo) ptCommitment;
                    nft_output ownerAddress (category_of nftUtxo) ytCommitment])))
    end.

Definition handleMerge (userUtxos : list Utxo) (ownerAddress : string)
    (ptTxId : option string) (ptVout : number)
    (ytTxId : option string) (ytVout : number) : outcome Transaction :=
  if unset ptTxId || unset ytTxId then Exit MissingEnv
  else
    match find_nft userUtxos ptTxId ptVout, find_nft userUtxos ytTxId ytVout with
    | Some ptUtxo, Some ytUtxo =>
        try (ptData <- parsePTCommitment (commitment_of ptUtxo) ;;
             ytData <- parseYTCommitment (commitment_of ytUtxo) ;;
             lstBchCommitment <- writeBigUInt64BE (principal ptData) ;;
             Ok (Sent (mkTx merge
                   [nft_input ptUtxo (commitment_of ptUtxo);
                    nft_input ytUtxo (commitment_of ytUtxo)]
                   [nft_output ownerAddress (category_of ptUtxo)
                      (toString_hex lstBchCommitment)])))
    | _, _ => Exit NftNotFound
    end.

Definition handleRedeemPT (userUtxos : list Utxo) (ownerAddress : string)
    (ptTxId : option string) (ptVout currentTime : number) : outcome Transaction :=
  if unset ptTxId then Exit MissingEnv
  else
    match find_nft userUtxos ptTxId ptVout with
    | None => Exit NftNotFound
    | Some ptUtxo =>
        try (ptData <- parsePTCommitment (commitment_of ptUtxo) ;;
             if num_lt currentTime (pt_expiry ptData) then Ok (Exit NotYetMatured)
             else
               Ok (Sent (mkTx (redeemPT currentTime)
                     [nft_input ptUtxo (commitment_of ptUtxo)]
                     [mkOutput ownerAddress (principal ptData) None])))
    end.

Definition handleClaimYield (userUtxos : list Utxo) (ownerAddress : string)
    (ytTxId : option string) (ytVout currentTime yieldRate : number)
  : outcome Transaction :=
  if unset ytTxId then Exit MissingEnv
  else
    match find_nft userUtxos ytTxId ytVout with
    | None => Exit NftNotFound
    | Some ytUtxo =>
        try (ytData <- parseYTCommitment (commitment_of ytUtxo) ;;
             if num_ge currentTime (yt_expiry ytData) then
               (* after expiry: pay the accrued yield, burn the YT *)
               Ok (Sent (mkTx (claimYield currentTime yieldRate)
                     [nft_input ytUtxo (commitment_of ytUtxo)]
                     [mkOutput ownerAddress (yieldAccrued ytData) None]))
             else
               (* before expiry: update the YT with the new yield *)
               let elapsed := currentTime in
               accrued <- BigInt_of_number
                            (num_div (num_mul elapsed yieldRate) (num 10000)) ;;
               let newYieldAccrued := yieldAccrued ytData + accrued in
               newYtCommitment <- buildYTCommitment newYieldAccrued (yt_expiry ytData) ;;
               Ok (Sent (mkTx (claimYield currentTime yieldRate)
                     [nft_input ytUtxo (commitment_of ytUtxo)]
                     [nft_output ownerAddress (category_of ytUtxo) newYtCommitment])))
    end.

End YieldSplit.

(* ================================================================= *)
(** ** dex.ts *)

Module Dex.

Record Position : Type := mkPosition {
  tickLower : number;
  tickUpper : number;
  liquidity : Z }.

Definition buildPositionCommitment (tickLower tickUpper : number) (liquidity : Z)
  : result string :=
  tickLowerBytes <- writeUInt32BE tickLower ;;
  tickUpperBytes <- writeUInt32BE tickUpper ;;
  liquidityBytes <- writeBigUInt64BE liquidity ;;
  Ok (toString_hex tickLowerBytes ++ toString_hex tickUpperBytes
      ++ toString_hex liquidityBytes).

Definition parsePositionCommitment (commitment : string) : result Position :=
  let tickLower := parseInt (slice commitment 0 8) 16 in
  let tickUpper := parseInt (slice commitment 8 16) 16 in
  liquidity <- BigInt_of_string ("0x" ++ slice commitment 16 32) ;;
  Ok (mkPosition tickLower tickUpper liquidity).

Definition calculateLiquidity (amount0 amount1 : Z) : Z :=
  if amount0 <? amount1 then amount0 else amount1.

(** [fee] is optional and defaults to 30; bigint division truncates
    toward zero. *)
Definition calculateSwapOutput (amountIn : Z) (zeroForOne : bool)
    (fee : option number) : result Z :=
  let fee := match fee with Some f => f | None => num 30 end in
  feeBps <- BigInt_of_number fee ;;
  denominator <- BigInt_of_number (num 10000) ;;
  let feeAmount := Z.quot (amountIn * feeBps) denominator in
  let amountAfterFee := amountIn - feeAmount in
  Ok amountAfterFee.

Inductive call : Type :=
| addLiquidity (amount0 amount1 : Z) (tickLower tickUpper : number)
| swap (zeroForOne : bool) (amountIn minAmountOut : Z).

(** The entries of the output lists of this script. *)
Inductive Output : Type :=
| covenant_output (address : string) (value : Z)
| nft_output (address tokenCategory nftCommitment : string)
| token_output (address tokenCategory : string) (amount : Z).

Record Transaction : Type := mkTx {
  tx_call : call;
  tx_to : list Output;
  tx_sender : string }.

(** [case 'add'] of [main]: the amounts and ticks are the parsed
    [AMOUNT0], [AMOUNT1], [TICK_LOWER] and [TICK_UPPER]. *)
Definition main_add (contractAddress ownerAddress : string)
    (amount0 amount1 : Z) (tickLower tickUpper : number) : outcome Transaction :=
  let liquidity := calculateLiquidity amount0 amount1 in
  try (commitment <- buildPositionCommitment tickLower tickUpper liquidity ;;
       Ok (Sent (mkTx (addLiquidity amount0 amount1 tickLower tickUpper)
             [covenant_output contractAddress 1000;
              nft_output ownerAddress "position" commitment]
             ownerAddress))).

(** [case 'swap'] of [main]. *)
Definition main_swap (contractAddress ownerAddress : string)
    (zeroForOne : bool) (amountIn minAmountOut : Z) : outcome Transaction :=
  try (expectedOut <- calculateSwapOutput amountIn zeroForOne None ;;
       Ok (Sent (mkTx (swap zeroForOne amountIn minAmountOut)
             [covenant_output contractAddress 1000;
              token_output ownerAddress (if zeroForOne then "token1" else "token0")
                expectedOut]
             ownerAddress))).

End Dex.

(* ================================================================= *)
(** ** stake.ts and unstake.ts *)

Module LiquidStake.

Inductive call : Type := stake | unstake.

Record Transaction : Type := mkTx {
  tx_call : call;
  tx_from : list Utxo;
  tx_to : list Output }.

(** [contractUtxos.find(u => u.token?.category &&
    u.token?.nft?.capability === 'minting')] *)
Definition find_minting (contractUtxos : list Utxo) : option Utxo :=
  find (fun u => negb (String.eqb (category_of u) EmptyString)
                 && has_capability cap_minting u) contractUtxos.

(** The reserve output: the minting NFT with an empty commitment. *)
Definition reserve_output (tokenAddress : string) (amount : Z) (mintingUtxo : Utxo)
  : Output :=
  mkOutput tokenAddress amount
    (Some (mkToken (category_of mintingUtxo) 0 (Some (mkNft cap_minting EmptyString)))).

End LiquidStake.

Module Stake.
Import LiquidStake.

(** [main] of stake.ts; [stakeAmount] is the parsed [STAKE_AMOUNT]. *)
Definition main (ownerWif : option string) (stakeAmount : Z)
    (contractUtxos userUtxos : list Utxo) (tokenAddress ownerAddress : string)
  : outcome Transaction :=
  if unset ownerWif then Exit MissingEnv
  else
    match find_minting contractUtxos with
    | None => Exit NoMintingNft
    | Some mintingUtxo =>
        match userUtxos with
        | [] => Exit NoWalletUtxos
        | _ =>
            (* stake amount + fees *)
            let minRequired := num_add (Number_of_bigint stakeAmount) (num 2000) in
            match find (fun u => num_ge (Number_of_bigint (utxo_satoshis u)) minRequired)
                    userUtxos with
            | None => Exit NoFundingUtxo
            | Some fundingUtxo =>
                (* encode stake amount as 8-byte commitment (LE) *)
                try (stakeAmountBytes <- writeBigUInt64LE stakeAmount ;;
                     let commitment := toString_hex stakeAmountBytes in
                     reserve <- BigInt_of_number
                                  (num_add (Number_of_bigint (utxo_satoshis mintingUtxo))
                                           (Number_of_bigint stakeAmount)) ;;
                     Ok (Sent (mkTx stake
                           [mkUtxo (utxo_txid fundingUtxo) (utxo_vout fundingUtxo)
                              (utxo_satoshis fundingUtxo) None]
                           [reserve_output tokenAddress reserve mintingUtxo;
                            mkOutput ownerAddress 1000
                              (Some (mkToken (category_of mintingUtxo) 0
                                       (Some (mkNft cap_none commitment))))])))
            end
        end
    end.

End Stake.

Module Unstake.
Import LiquidStake.

(** [main] of unstake.ts; [nftTxId] and [nftVout] are [NFT_TXID] and the
    parsed [NFT_VOUT]. *)
Definition main (ownerWif nftTxId : option string) (nftVout : number)
    (contractUtxos userUtxos : list Utxo) (tokenAddress ownerAddress : string)
  : outcome Transaction :=
  if unset ownerWif then Exit MissingEnv
  else if unset nftTxId then Exit MissingEnv
  else
    match find_minting contractUtxos with
    | None => Exit NoMintingNft
    | Some mintingUtxo =>
        match find (fun u => env_eqb (utxo_txid u) nftTxId
                             && num_eq (num (utxo_vout u)) nftVout
                             && String.eqb (category_of u) (category_of mintingUtxo)
                             && has_capability cap_none u) userUtxos with
        | None => Exit NftNotFound
        | Some nftUtxo =>
            (* decode the stake amount from the NFT commitment *)
            let commitment := commitment_of nftUtxo in
            try (stakedAmount <- BigInt_of_string ("0x" ++ commitment) ;;
                 if num_lt (Number_of_bigint (utxo_satoshis mintingUtxo))
                           (Number_of_bigint stakedAmount)
                 then Ok (Exit InsufficientReserve)
                 else
                   reserve <- BigInt_of_number
                                (num_sub (Number_of_bigint (utxo_satoshis mintingUtxo))
                                         (Number_of_bigint stakedAmount)) ;;
                   Ok (Sent (mkTx unstake
                         [mkUtxo (utxo_txid nftUtxo) (utxo_vout nftUtxo)
                            (utxo_satoshis nftUtxo)
                            (Some (mkToken (category_of nftUtxo) 0
                                     (Some (mkNft cap_none commitment))))]
                         [reserve_output tokenAddress reserve mintingUtxo;
                          mkOutput ownerAddress stakedAmount None])))
        end
    end.

End Unstake.

(** The unspent outputs a sent transaction leaves at an address: output
    [i] of the transaction [txid] becomes the outpoint [txid:i]. *)
Fixpoint outputs_at (address txid : string) (i : Z) (outs : list Output) : list Utxo :=
  match outs with
  | [] => []
  | o :: rest =>
      let later := outputs_at address txid (i + 1) rest in
      if String.eqb (out_to o) address
      then mkUtxo txid i (out_amount o) (out_token o) :: later
      else later
  end.

(** Staking and then unstaking the receipt just minted: the stake
    transaction is confirmed as [txid], and unstake.ts is run as stake.ts
    advises, with [NFT_TXID = txid] and [NFT_VOUT = 1], against the
    outputs of that transaction. *)
Definition stake_then_unstake (ownerWif : option string) (stakeAmount : Z)
    (contractUtxos userUtxos : list Utxo) (tokenAddress ownerAddress txid : string)
  : outcome LiquidStake.Transaction :=
  match Stake.main ownerWif stakeAmount contractUtxos userUtxos
          tokenAddress ownerAddress with
  | Sent tx =>
      Unstake.main ownerWif (Some txid) (num 1)
        (outputs_at tokenAddress txid 0 (LiquidStake.tx_to tx))
        (outputs_at ownerAddress txid 0 (LiquidStake.tx_to tx))
        tokenAddress ownerAddress
  | other => other
  end.

(** Repeated partial claims on one YT.  Each step is a current time and
    the identifier under which the claim transaction is confirmed; the
    next claim spends output 0 of that transaction.  The run lists the
    outcome of every claim attempted and stops at the first one that
    sends nothing. *)
Fixpoint claim_run (ownerAddress : string) (yieldRate : number) (yt : Utxo)
    (steps : list (number * string)) : list (outcome YieldSplit.Transaction) :=
  match steps with
  | [] => []
  | (currentTime, txid) :: rest =>
      let o := YieldSplit.handleClaimYield [yt] ownerAddress
                 (Some (utxo_txid yt)) (num (utxo_vout yt)) currentTime yieldRate in
      o :: match o with
           | Sent tx =>
               match outputs_at ownerAddress txid 0 (YieldSplit.tx_to tx) with
               | yt' :: _ => claim_run ownerAddress yieldRate yt' rest
               | [] => []
               end
           | _ => []
           end
  end.

(** The accrued-yield field of the YT a claim outcome carries, if it
    carries one. *)
Definition yield_of (o : outcome YieldSplit.Transaction) : option Z :=
  match o with
  | Sent tx =>
      match YieldSplit.tx_to tx with
      | mkOutput _ _ (Some (mkToken _ _ (Some n))) :: _ =>
          match YieldSplit.parseYTCommitment (nft_commitment n) with
          | Ok d => Some (YieldSplit.yieldAccrued d)
          | Throw _ => None
          end
      | _ => None
      end
  | _ => None
  end.

Fixpoint yields_of (os : list (outcome YieldSplit.Transaction)) : list Z :=
  match os with
  | [] => []
  | o :: rest =>
      match yield_of o with
      | Some y => y :: yields_of rest
      | None => yields_of rest
      end
  end.

(* ================================================================= *)
(** ** The yield accrual engine as specified *)

Module Spec.

(** Follows the specification's words, not the scripts:
    [accrue(previousYield, elapsedTime, ratedBps, expiry,
    mintOrLastClaimTime)] adds [floor(elapsed * ratedBps / 10000)] to the
    previous yield, the elapsed time being clamped to
    [[0, expiry - mintOrLastClaimTime]]. *)
Definition accrue (previousYield elapsedTime ratedBps expiry mintOrLastClaimTime : Z)
  : Z :=
  let elapsed := Z.max 0 (Z.min elapsedTime (expiry - mintOrLastClaimTime)) in
  previousYield + elapsed * ratedBps / 10000.

(** The maximum term yield: what a YT minted at [mintTime] with nothing
    accrued reaches over its full term. *)
Definition maxTermYield (ratedBps expiry mintTime : Z) : Z :=
  accrue 0 (expiry - mintTime) ratedBps expiry mintTime.

End Spec.

(* ================================================================= *)
(** ** Auxiliary notions for the codec proofs *)

(** The hexadecimal digits of a buffer, two per byte. *)
Definition nibbles (bs : buffer) : list Z :=
  flat_map (fun b => [Z.shiftr b 4; Z.land b 15]) bs.

(** The integer a buffer denotes, most significant byte first. *)
Definition be_value (bs : buffer) : Z :=
  fold_left (fun acc b => acc * 256 + b) bs 0.

Definition is_byte (b : Z) : Prop := 0 <= b < 256.

(** The range check of the 64-bit buffer writes. *)
Definition u64b (v : Z) : bool := (0 <=? v) && (v <? 2 ^ 64).

(** A receipt, PT or YT with the given outpoint, category and commitment. *)
Definition nft_utxo (txid : string) (vout : Z) (category commitment : string) : Utxo :=
  mkUtxo txid vout 1000 (Some (mkToken category 0 (Some (mkNft cap_none commitment)))).

(** Values that fit 4 and 8 unsigned bytes. *)
Definition u32 (v : Z) : Prop := 0 <= v < 2 ^ 32.
Definition u64 (v : Z) : Prop := 0 <= v < 2 ^ 64.

(** A field of [n] bytes written most significant byte first, in hex. *)
Definition hex_field (n : nat) (v : Z) : string := toString_hex (be_bytes n v).

(** The steps of a run given by integer times. *)
Definition timed (steps : list (Z * string)) : list (number * string) :=
  map (fun s => (num (fst s), snd s)) steps.

(** The amount a claim outcome pays out when it burns the YT: one output,
    without a token. *)
Definition payout_of (o : outcome YieldSplit.Transaction) : option Z :=
  match o with
  | Sent tx =>
      match YieldSplit.tx_to tx with
      | [mkOutput _ amount None] => Some amount
      | _ => None
      end
  | _ => None
  end.

(** The reserve of 100000 satoshis and the wallet output that funds the
    stake in the staking examples. *)
Definition reserve_utxo : Utxo :=
  mkUtxo "cc" 0 100000 (Some (mkToken "cat" 0 (Some (mkNft cap_minting EmptyString)))).

Definition wallet_utxo : Utxo := mkUtxo "dd" 0 60000 None.

(** The commitment of the receipt a stake outcome mints (output 1). *)
Definition receipt_of (o : outcome LiquidStake.Transaction) : option string :=
  match o with
  | Sent tx =>
      match LiquidStake.tx_to tx with
      | [_; receipt] =>
          match out_token receipt with
          | Some t => option_map nft_commitment (tok_nft t)
          | None => None
          end
      | _ => None
      end
  | _ => None
  end.

(* ================================================================= *)
(** ** dex.ts: the cases that spend a position *)

Module DexPosition.

Inductive call : Type :=
| removeLiquidity (amount0 amount1 : Z)
| collect (feeAmount0 feeAmount1 : Z).

Record Transaction : Type := mkTx {
  tx_call : call;
  tx_from : Utxo;
  tx_to : list Dex.Output;
  tx_sender : string }.

(** [userUtxos.find(u => u.token?.nft?.capability === 'none' &&
    u.token?.nft?.commitment?.length === 32)] *)
Definition find_position (userUtxos : list Utxo) : option Utxo :=
  find (fun u => has_capability cap_none u
                 && (String.length (commitment_of u) =? 32)%nat) userUtxos.

(** [case 'remove'] of [main]: [positionTxid] is [POSITION_TXID],
    [positionVout] the parsed [POSITION_VOUT], the amounts the parsed
    [AMOUNT0] and [AMOUNT1]. *)
Definition main_remove (contractAddress ownerAddress : string)
    (positionTxid : option string) (positionVout : number)
    (amount0 amount1 : Z) (userUtxos : list Utxo) : outcome Transaction :=
  if unset positionTxid then Exit MissingEnv
  else
    match find_position userUtxos with
    | None => Exit NftNotFound
    | Some positionUtxo =>
        Sent (mkTx (removeLiquidity amount0 amount1) positionUtxo
                [Dex.covenant_output contractAddress 1000;
                 Dex.token_output ownerAddress "token0" amount0;
                 Dex.token_output ownerAddress "token1" amount1]
                ownerAddress)
    end.

(** [case 'collect'] of [main]. *)
Definition main_collect (contractAddress ownerAddress : string)
    (positionTxid : option string) (positionVout : number)
    (feeAmount0 feeAmount1 : Z) (userUtxos : list Utxo) : outcome Transaction :=
  if unset positionTxid then Exit MissingEnv
  else
    match find_position userUtxos with
    | None => Exit NftNotFound
    | Some positionUtxo =>
        let positionCommitment := commitment_of positionUtxo in
        Sent (mkTx (collect feeAmount0 feeAmount1) positionUtxo
                [Dex.covenant_output contractAddress 1000;
                 Dex.nft_output ownerAddress "position" positionCommitment;
                 Dex.token_output ownerAddress "token0" feeAmount0;
                 Dex.token_output ownerAddress "token1" feeAmount1]
                ownerAddress)
    end.

End DexPosition.

(* ================================================================= *)
(** ** test-mocknet.ts *)

(** [int64LE(n)]: [Buffer.alloc(8)] followed by [writeBigInt64LE(n)], the
    signed write; a negative value is stored in two's complement. *)
Definition int64LE (n : Z) : result buffer :=
  if (n <? - 2 ^ 63) || (2 ^ 63 - 1 <? n) then Throw RangeError
  else Ok (le_bytes 8 n).

(* ================================================================= *)
(** ** Running one script on the outputs of another *)

(** Splitting a receipt and then merging the pair just minted, as
    yield-split.ts advises after a split: the split transaction is
    confirmed as [txid] and the merge is run with [PT_TXID = YT_TXID =
    txid], [PT_VOUT = 0] and [YT_VOUT = 1]. *)
Definition split_then_merge (userUtxos : list Utxo) (ownerAddress : string)
    (nftTxId : option string) (nftVout expiry : number) (txid : string)
  : outcome YieldSplit.Transaction :=
  match YieldSplit.handleSplit userUtxos ownerAddress nftTxId nftVout expiry with
  | Sent tx =>
      YieldSplit.handleMerge
        (outputs_at ownerAddress txid 0 (YieldSplit.tx_to tx)) ownerAddress
        (Some txid) (num 0) (Some txid) (num 1)
  | other => other
  end.

(** Splitting a receipt and then redeeming the PT just minted, with
    [PT_TXID = txid] and [PT_VOUT = 0]. *)
Definition split_then_redeem (userUtxos : list Utxo) (ownerAddress : string)
    (nftTxId : option string) (nftVout expiry : number) (txid : string)
    (currentTime : number) : outcome YieldSplit.Transaction :=
  match YieldSplit.handleSplit userUtxos ownerAddress nftTxId nftVout expiry with
  | Sent tx =>
      YieldSplit.handleRedeemPT
        (outputs_at ownerAddress txid 0 (YieldSplit.tx_to tx)) ownerAddress
        (Some txid) (num 0) currentTime
  | other => other
  end.

(** Unstaking the receipt a merge transaction minted, as yield-split.ts
    advises after a merge: [NFT_TXID = txid] and [NFT_VOUT = 0], where
    [txid] is the confirmed merge transaction [tx]. *)
Definition unstake_merged (tx : YieldSplit.Transaction) (txid : string)
    (ownerWif : option string) (contractUtxos : list Utxo)
    (tokenAddress ownerAddress : string) : outcome LiquidStake.Transaction :=
  Unstake.main ownerWif (Some txid) (num 0) contractUtxos
    (outputs_at ownerAddress txid 0 (YieldSplit.tx_to tx))
    tokenAddress ownerAddress.

(** The integer a buffer denotes, least significant byte first. *)
Definition le_value (bs : buffer) : Z :=
  fold_right (fun b acc => acc * 256 + b) 0 bs.

(** The range check of the 32-bit buffer write, on an integer. *)
Definition u32b (v : Z) : bool := (0 <=? v) && (v <? 2 ^ 32).

(** The inputs of a transaction are immutable NFTs among the given
    unspent outputs, at the transaction identifier asked for. *)
Definition spends_listed_nfts (userUtxos : list Utxo) (txids : list string)
    (inputs : list Utxo) : Prop :=
  Forall (fun i => exists u,
              In u userUtxos /\ In (utxo_txid u) txids
              /\ has_capability cap_none u = true
              /\ i = YieldSplit.nft_input u (commitment_of u)) inputs.

(** The accrued yields that successive partial claims at the given times
    write, starting from the yield [Y]: each claim adds
    [currentTime * yieldRate / 10000] to the yield before it. *)
Fixpoint accrued_yields (Y yieldRate : Z) (times : list Z) : list Z :=
  match times with
  | [] => []
  | t :: rest =>
      let Y' := Y + t * yieldRate / 10000 in
      Y' :: accrued_yields Y' yieldRate rest
  end.

(* ================================================================= *)
(** * Properties *)

(** ** Results and numbers *)

Lemma Ok_inj {A : Type} (a b : A) : Ok a = Ok b -> a = b.
Proof. intros H. now injection H. Qed.

Lemma Qltb_inject_Z (a b : Z) : Qltb (inject_Z a) (inject_Z b) = (a <? b).
Proof. unfold Qltb; simpl; now rewrite !Z.mul_1_r. Qed.

Lemma num_lt_num (a b : Z) : num_lt (num a) (num b) = (a <? b).
Proof. apply Qltb_inject_Z. Qed.

Lemma num_ge_num (a b : Z) : num_ge (num a) (num b) = (b <=? a).
Proof.
  unfold num_ge, num; rewrite Qltb_inject_Z.
  destruct (Z.ltb_spec a b), (Z.leb_spec b a); simpl; auto; lia.
Qed.

Lemma num_eq_num (a : Z) : num_eq (num a) (num a) = true.
Proof. unfold num_eq, num. apply Qeq_bool_iff. reflexivity. Qed.

Lemma BigInt_of_number_num (z : Z) : BigInt_of_number (num z) = Ok z.
Proof.
  unfold BigInt_of_number, num; simpl.
  now rewrite Z.mod_1_r, Z.div_1_r.
Qed.

(** ** Hexadecimal digits *)

Section HexDigits.

Variable d : Z.
Hypothesis d_nibble : 0 <= d < 16.

Lemma nibble_cases : In d [0; 1; 2; 3; 4; 5; 6; 7; 8; 9; 10; 11; 12; 13; 14; 15].
Proof. simpl. lia. Qed.

Ltac by_nibble :=
  let H := fresh in
  pose proof nibble_cases as H; simpl in H;
  repeat (destruct H as [<- | H]; [reflexivity | ]); contradiction.

Lemma radix_digit_hexdigit : radix_digit 16 (hexdigit d) = Some d.
Proof. by_nibble. Qed.

Lemma hexdigit_not_space : is_white_space (hexdigit d) = false.
Proof. by_nibble. Qed.

Lemma strip_sign_hexdigit (r : string) :
  strip_sign (String (hexdigit d) r) = (1, String (hexdigit d) r).
Proof. by_nibble. Qed.

Lemma hexdigit_not_x :
  ((hexdigit d =? "x")%char || (hexdigit d =? "X")%char) = false.
Proof. by_nibble. Qed.

End HexDigits.

Lemma strip_hex_prefix_hexdigits (a : ascii) (b : Z) (r : string) :
  0 <= b < 16 ->
  strip_hex_prefix (String a (String (hexdigit b) r)) = None.
Proof.
  intros Hb. unfold strip_hex_prefix.
  rewrite (hexdigit_not_x b Hb).
  destruct a as [[] [] [] [] [] [] [] []]; reflexivity.
Qed.

(** ** Buffers and their hexadecimal form *)

Lemma land_255 (v : Z) : Z.land v 255 = v mod 256.
Proof. change 255 with (Z.ones 8). now rewrite Z.land_ones by lia. Qed.

Lemma land_15 (v : Z) : Z.land v 15 = v mod 16.
Proof. change 15 with (Z.ones 4). now rewrite Z.land_ones by lia. Qed.

Lemma shiftr_8 (v : Z) : Z.shiftr v 8 = v / 256.
Proof. now rewrite Z.shiftr_div_pow2 by lia. Qed.

Lemma shiftr_4 (v : Z) : Z.shiftr v 4 = v / 16.
Proof. now rewrite Z.shiftr_div_pow2 by lia. Qed.

Lemma high_nibble (b : Z) : is_byte b -> 0 <= Z.shiftr b 4 < 16.
Proof.
  unfold is_byte; intros Hb. rewrite shiftr_4.
  split; [apply Z.div_pos; lia | apply Z.div_lt_upper_bound; lia].
Qed.

Lemma low_nibble (b : Z) : 0 <= Z.land b 15 < 16.
Proof. rewrite land_15. apply Z.mod_pos_bound; lia. Qed.

Lemma nibbles_of_byte (b acc : Z) :
  (acc * 16 + Z.shiftr b 4) * 16 + Z.land b 15 = acc * 256 + b.
Proof.
  rewrite shiftr_4, land_15.
  pose proof (Z.div_mod b 16 ltac:(lia)). lia.
Qed.

Lemma le_bytes_is_byte (n : nat) : forall v, Forall is_byte (le_bytes n v).
Proof.
  induction n as [|k IH]; intros v; simpl; constructor; auto.
  unfold is_byte. rewrite land_255. apply Z.mod_pos_bound; lia.
Qed.

Lemma length_le_bytes (n : nat) : forall v, List.length (le_bytes n v) = n.
Proof. induction n as [|k IH]; intros v; simpl; auto. Qed.

Lemma be_bytes_is_byte (n : nat) (v : Z) : Forall is_byte (be_bytes n v).
Proof. unfold be_bytes. apply Forall_rev, le_bytes_is_byte. Qed.

Lemma length_be_bytes (n : nat) (v : Z) : List.length (be_bytes n v) = n.
Proof. unfold be_bytes. now rewrite length_rev, length_le_bytes. Qed.

Lemma length_toString_hex (bs : buffer) :
  String.length (toString_hex bs) = (2 * List.length bs)%nat.
Proof. induction bs as [|b r IH]; simpl; [reflexivity | rewrite IH; lia]. Qed.

Lemma take_digits_toString_hex (bs : buffer) :
  Forall is_byte bs ->
  take_digits 16 (toString_hex bs) = (nibbles bs, EmptyString).
Proof.
  induction 1 as [|b r Hb _ IH]; [reflexivity | ].
  cbn [toString_hex hex_of_byte append take_digits].
  rewrite (radix_digit_hexdigit _ (high_nibble b Hb)).
  rewrite (radix_digit_hexdigit _ (low_nibble b)).
  now rewrite IH.
Qed.

Lemma fold_nibbles (bs : buffer) : forall acc,
  fold_left (fun a d => a * 16 + d) (nibbles bs) acc
  = fold_left (fun a b => a * 256 + b) bs acc.
Proof.
  induction bs as [|b r IH]; intros acc; [reflexivity | ].
  cbn [nibbles flat_map app fold_left].
  rewrite nibbles_of_byte. apply IH.
Qed.

Lemma digits_value_nibbles (bs : buffer) :
  digits_value 16 (nibbles bs) = be_value bs.
Proof. apply fold_nibbles. Qed.

Lemma le_bytes_value (n : nat) : forall v,
  fold_right (fun b acc => acc * 256 + b) 0 (le_bytes n v)
  = v mod 2 ^ (8 * Z.of_nat n).
Proof.
  induction n as [|k IH]; intros v.
  - simpl. now rewrite Z.mod_1_r.
  - cbn [le_bytes fold_right]. rewrite IH, land_255, shiftr_8.
    replace (8 * Z.of_nat (S k)) with (8 + 8 * Z.of_nat k) by lia.
    rewrite Z.pow_add_r by lia. change (2 ^ 8) with 256.
    rewrite Z.rem_mul_r by lia. lia.
Qed.

Lemma be_value_be_bytes (n : nat) (v : Z) :
  be_value (be_bytes n v) = v mod 2 ^ (8 * Z.of_nat n).
Proof.
  unfold be_value, be_bytes.
  rewrite <- (le_bytes_value n v).
  rewrite <- (rev_involutive (le_bytes n v)) at 2.
  now rewrite fold_left_rev_right.
Qed.

Lemma be_value_u64 (v : Z) : 0 <= v < 2 ^ 64 -> be_value (be_bytes 8 v) = v.
Proof. intros Hv. rewrite be_value_be_bytes. now apply Z.mod_small. Qed.

Lemma be_value_u32 (v : Z) : 0 <= v < 2 ^ 32 -> be_value (be_bytes 4 v) = v.
Proof. intros Hv. rewrite be_value_be_bytes. now apply Z.mod_small. Qed.

(** ** Reading a hexadecimal field back *)

Lemma trim_right_cons (c : ascii) (r : string) :
  is_white_space c = false -> trim_right r = r ->
  trim_right (String c r) = String c r.
Proof.
  intros Hc Hr. cbn [trim_right]. rewrite Hr.
  destruct r; [now rewrite Hc | reflexivity].
Qed.

Lemma trim_right_toString_hex (bs : buffer) :
  Forall is_byte bs -> trim_right (toString_hex bs) = toString_hex bs.
Proof.
  induction 1 as [|b r Hb _ IH]; [reflexivity | ].
  cbn [toString_hex hex_of_byte append].
  apply trim_right_cons; [apply hexdigit_not_space, high_nibble, Hb | ].
  apply trim_right_cons; [apply hexdigit_not_space, low_nibble | exact IH].
Qed.

Lemma all_digits_toString_hex (bs : buffer) :
  bs <> [] -> Forall is_byte bs ->
  all_digits 16 (toString_hex bs) = Ok (be_value bs).
Proof.
  intros Hne Hbs. unfold all_digits.
  rewrite (take_digits_toString_hex bs Hbs), <- digits_value_nibbles.
  destruct bs as [|b r]; [contradiction | reflexivity].
Qed.

(** [BigInt('0x' + hex)] reads a non-empty buffer back, most significant
    byte first. *)
Lemma BigInt_of_hex (bs : buffer) :
  bs <> [] -> Forall is_byte bs ->
  BigInt_of_string ("0x" ++ toString_hex bs) = Ok (be_value bs).
Proof.
  intros Hne Hbs. unfold BigInt_of_string, trim.
  cbn [append trim_left]. change (is_white_space "0") with false. cbv iota.
  rewrite trim_right_cons;
    [ | reflexivity
      | apply trim_right_cons; [reflexivity | now apply trim_right_toString_hex] ].
  cbn [radix_prefix]. change (("x" =? "x")%char || ("x" =? "X")%char) with true.
  cbv iota. now apply all_digits_toString_hex.
Qed.

(** [parseInt(hex, 16)] does the same. *)
Lemma parseInt_hex (bs : buffer) :
  bs <> [] -> Forall is_byte bs ->
  parseInt (toString_hex bs) 16 = num (be_value bs).
Proof.
  intros Hne Hbs.
  pose proof (take_digits_toString_hex bs Hbs) as Htake.
  rewrite <- digits_value_nibbles.
  destruct Hbs as [|b r Hb Hr]; [contradiction | ].
  unfold parseInt. cbn [toString_hex hex_of_byte append trim_left] in *.
  rewrite (hexdigit_not_space _ (high_nibble b Hb)).
  rewrite (strip_sign_hexdigit _ (high_nibble b Hb)).
  change (negb (16 =? 0) && ((16 <? 2) || (36 <? 16))) with false.
  change ((16 =? 0) || (16 =? 16)) with true. cbv iota.
  rewrite (strip_hex_prefix_hexdigits _ _ _ (low_nibble b)).
  change (if 16 =? 0 then 10 else 16) with 16.
  rewrite Htake. cbn [fst nibbles flat_map app].
  now rewrite Z.mul_1_l.
Qed.

(** ** Slices of concatenated fields *)

Lemma substring_append_skip (a s : string) (n m : nat) :
  substring (String.length a + n) m (a ++ s) = substring n m s.
Proof. induction a as [|c a IH]; [reflexivity | exact IH]. Qed.

Lemma substring_append_take (a s : string) :
  substring 0 (String.length a) (a ++ s) = a.
Proof. induction a as [|c a IH]; simpl; [now destruct s | now rewrite IH]. Qed.

Lemma substring_whole (s : string) : substring 0 (String.length s) s = s.
Proof. induction s as [|c s IH]; simpl; [reflexivity | now rewrite IH]. Qed.

Lemma length_append (a b : string) :
  String.length (a ++ b) = (String.length a + String.length b)%nat.
Proof. induction a as [|c a IH]; simpl; [reflexivity | now rewrite IH]. Qed.

Lemma slice_first (b c : string) (j : nat) :
  String.length b = j -> slice (b ++ c) 0 j = b.
Proof.
  intros <-. unfold slice. rewrite Nat.sub_0_r. apply substring_append_take.
Qed.

Lemma slice_middle (a b c : string) (i j : nat) :
  String.length a = i -> String.length b = (j - i)%nat ->
  slice (a ++ b ++ c) i j = b.
Proof.
  intros <- Hb. unfold slice. rewrite <- Hb.
  rewrite <- (Nat.add_0_r (String.length a)) at 1.
  rewrite substring_append_skip. apply substring_append_take.
Qed.

Lemma slice_last (a b : string) (i j : nat) :
  String.length a = i -> String.length b = (j - i)%nat ->
  slice (a ++ b) i j = b.
Proof.
  intros <- Hb. unfold slice. rewrite <- Hb.
  rewrite <- (Nat.add_0_r (String.length a)) at 1.
  rewrite substring_append_skip. apply substring_whole.
Qed.

Lemma slice_third (a b c : string) (i j : nat) :
  (String.length a + String.length b)%nat = i ->
  String.length c = (j - i)%nat ->
  slice (a ++ b ++ c) i j = c.
Proof.
  intros <- Hc. unfold slice. rewrite <- Hc.
  rewrite substring_append_skip.
  rewrite <- (Nat.add_0_r (String.length b)) at 1.
  rewrite substring_append_skip. apply substring_whole.
Qed.

Lemma length_hex_be_bytes (n : nat) (v : Z) :
  String.length (toString_hex (be_bytes n v)) = (2 * n)%nat.
Proof. now rewrite length_toString_hex, length_be_bytes. Qed.

Lemma be_bytes_nonempty (n : nat) (v : Z) : be_bytes (S n) v <> [].
Proof.
  intros H. apply (f_equal (@List.length Z)) in H.
  rewrite length_be_bytes in H. discriminate.
Qed.

(** ** The commitment codec *)

Lemma writeBigUInt64BE_u64 (v : Z) : u64 v -> writeBigUInt64BE v = Ok (be_bytes 8 v).
Proof.
  unfold u64, writeBigUInt64BE; intros Hv.
  destruct (Z.ltb_spec v 0), (Z.ltb_spec (2 ^ 64 - 1) v); simpl; auto; lia.
Qed.

Lemma writeUInt32BE_u32 (v : Z) : u32 v -> writeUInt32BE (num v) = Ok (be_bytes 4 v).
Proof.
  unfold u32, writeUInt32BE, num; intros Hv.
  change 0%Q with (inject_Z 0). rewrite !Qltb_inject_Z, Qfloor_Z.
  destruct (Z.ltb_spec v 0), (Z.ltb_spec (2 ^ 32 - 1) v); simpl; auto; lia.
Qed.

Lemma length_hex_field (n : nat) (v : Z) : String.length (hex_field n v) = (2 * n)%nat.
Proof. apply length_hex_be_bytes. Qed.

Lemma BigInt_of_hex_field_u64 (v : Z) :
  u64 v -> BigInt_of_string ("0x" ++ hex_field 8 v) = Ok v.
Proof.
  intros Hv. unfold hex_field.
  rewrite BigInt_of_hex, be_value_u64;
    auto using be_bytes_nonempty, be_bytes_is_byte.
Qed.

Lemma parseInt_hex_field_u32 (v : Z) :
  u32 v -> parseInt (hex_field 4 v) 16 = num v.
Proof.
  intros Hv. unfold hex_field.
  rewrite parseInt_hex, be_value_u32;
    auto using be_bytes_nonempty, be_bytes_is_byte.
Qed.

Section PrincipalExpiryLayout.

(** PT and YT commitments share one layout: 8 bytes of amount, then 4
    bytes of expiry. *)
Variables amount expiry : Z.
Hypothesis amount_u64 : u64 amount.
Hypothesis expiry_u32 : u32 expiry.

Let commitment : string := hex_field 8 amount ++ hex_field 4 expiry.

Lemma slice_amount : slice commitment 0 16 = hex_field 8 amount.
Proof. apply slice_first. now rewrite length_hex_field. Qed.

Lemma slice_expiry : slice commitment 16 24 = hex_field 4 expiry.
Proof. apply slice_last; now rewrite length_hex_field. Qed.

Lemma buildPTCommitment_ok :
  YieldSplit.buildPTCommitment amount (num expiry) = Ok commitment.
Proof.
  unfold YieldSplit.buildPTCommitment.
  now rewrite writeBigUInt64BE_u64, writeUInt32BE_u32.
Qed.

Lemma buildYTCommitment_ok :
  YieldSplit.buildYTCommitment amount (num expiry) = Ok commitment.
Proof.
  unfold YieldSplit.buildYTCommitment.
  now rewrite writeBigUInt64BE_u64, writeUInt32BE_u32.
Qed.

Lemma parsePTCommitment_ok :
  YieldSplit.parsePTCommitment commitment = Ok (YieldSplit.mkPT amount (num expiry)).
Proof.
  unfold YieldSplit.parsePTCommitment.
  rewrite slice_amount, slice_expiry.
  now rewrite BigInt_of_hex_field_u64, parseInt_hex_field_u32.
Qed.

Lemma parseYTCommitment_ok :
  YieldSplit.parseYTCommitment commitment = Ok (YieldSplit.mkYT amount (num expiry)).
Proof.
  unfold YieldSplit.parseYTCommitment.
  rewrite slice_amount, slice_expiry.
  now rewrite BigInt_of_hex_field_u64, parseInt_hex_field_u32.
Qed.

End PrincipalExpiryLayout.

Section PositionLayout.

Variables lower upper amount : Z.
Hypothesis lower_u32 : u32 lower.
Hypothesis upper_u32 : u32 upper.
Hypothesis amount_u64 : u64 amount.

Let commitment : string :=
  hex_field 4 lower ++ hex_field 4 upper ++ hex_field 8 amount.

Lemma buildPositionCommitment_ok :
  Dex.buildPositionCommitment (num lower) (num upper) amount = Ok commitment.
Proof.
  unfold Dex.buildPositionCommitment.
  now rewrite !writeUInt32BE_u32, writeBigUInt64BE_u64.
Qed.

Lemma parsePositionCommitment_ok :
  Dex.parsePositionCommitment commitment
  = Ok (Dex.mkPosition (num lower) (num upper) amount).
Proof.
  unfold Dex.parsePositionCommitment, commitment.
  rewrite (slice_first _ _ 8) by (now rewrite length_hex_field).
  rewrite (slice_middle _ _ _ 8 16) by (now rewrite length_hex_field).
  rewrite (slice_third _ _ _ 16 32) by (now rewrite !length_hex_field).
  now rewrite !parseInt_hex_field_u32, BigInt_of_hex_field_u64.
Qed.

End PositionLayout.

(** C5. Commitment codec round trip: for ticks and expiries that fit 4
    unsigned bytes and liquidity, principal and yield that fit 8 unsigned
    bytes, each builder succeeds and the matching parser returns exactly
    the fields that were built: position (tickLower, tickUpper,
    liquidity), PT (principal, expiry) and YT (yield, expiry). *)
Theorem commitment_roundtrip (tl tu L P Y E : Z) :
  u32 tl -> u32 tu -> u64 L -> u64 P -> u64 Y -> u32 E ->
  (c <- Dex.buildPositionCommitment (num tl) (num tu) L ;;
   Dex.parsePositionCommitment c) = Ok (Dex.mkPosition (num tl) (num tu) L)
  /\ (c <- YieldSplit.buildPTCommitment P (num E) ;;
      YieldSplit.parsePTCommitment c) = Ok (YieldSplit.mkPT P (num E))
  /\ (c <- YieldSplit.buildYTCommitment Y (num E) ;;
      YieldSplit.parseYTCommitment c) = Ok (YieldSplit.mkYT Y (num E)).
Proof.
  intros Htl Htu HL HP HY HE. repeat split.
  - rewrite buildPositionCommitment_ok by assumption.
    now apply parsePositionCommitment_ok.
  - rewrite buildPTCommitment_ok by assumption.
    now apply parsePTCommitment_ok.
  - rewrite buildYTCommitment_ok by assumption.
    now apply parseYTCommitment_ok.
Qed.

Lemma commitment_roundtrip_witness :
  (c <- Dex.buildPositionCommitment (num 0) (num 100) 1000000 ;;
   Dex.parsePositionCommitment c) = Ok (Dex.mkPosition (num 0) (num 100) 1000000)
  /\ (c <- YieldSplit.buildPTCommitment 50000 (num 500000) ;;
      YieldSplit.parsePTCommitment c) = Ok (YieldSplit.mkPT 50000 (num 500000))
  /\ (c <- YieldSplit.buildYTCommitment 1000 (num 500000) ;;
      YieldSplit.parseYTCommitment c) = Ok (YieldSplit.mkYT 1000 (num 500000)).
Proof.
  apply (commitment_roundtrip 0 100 1000000 50000 1000 500000);
    unfold u32, u64; lia.
Defined.

(** ** Yield splitting: redeeming a PT *)

Lemma unset_Some (s : string) : s <> EmptyString -> unset (Some s) = false.
Proof. intros Hs. simpl. now apply String.eqb_neq. Qed.

Lemma buildPTCommitment_inv (P E : Z) (c : string) :
  u64 P -> u32 E ->
  YieldSplit.buildPTCommitment P (num E) = Ok c ->
  YieldSplit.parsePTCommitment c = Ok (YieldSplit.mkPT P (num E)).
Proof.
  intros HP HE Hc. rewrite buildPTCommitment_ok in Hc by assumption.
  apply Ok_inj in Hc. subst c. apply parsePTCommitment_ok; assumption.
Qed.

Lemma buildYTCommitment_inv (Y E : Z) (c : string) :
  u64 Y -> u32 E ->
  YieldSplit.buildYTCommitment Y (num E) = Ok c ->
  YieldSplit.parseYTCommitment c = Ok (YieldSplit.mkYT Y (num E)).
Proof.
  intros HY HE Hc. rewrite buildYTCommitment_ok in Hc by assumption.
  apply Ok_inj in Hc. subst c. apply parseYTCommitment_ok; assumption.
Qed.

Section RedeemPT.

Variables (userUtxos : list Utxo) (ownerAddress ptTxId : string) (ptVout : number).
Variables (ptUtxo : Utxo) (P E : Z).

Hypothesis P_u64 : u64 P.
Hypothesis E_u32 : u32 E.
Hypothesis ptTxId_set : ptTxId <> EmptyString.
Hypothesis pt_found :
  YieldSplit.find_nft userUtxos (Some ptTxId) ptVout = Some ptUtxo.
Hypothesis pt_commitment :
  YieldSplit.buildPTCommitment P (num E) = Ok (commitment_of ptUtxo).

Lemma handleRedeemPT_cases (currentTime : Z) :
  YieldSplit.handleRedeemPT userUtxos ownerAddress (Some ptTxId) ptVout (num currentTime)
  = if currentTime <? E then Exit NotYetMatured
    else Sent (YieldSplit.mkTx (YieldSplit.redeemPT (num currentTime))
                 [YieldSplit.nft_input ptUtxo (commitment_of ptUtxo)]
                 [mkOutput ownerAddress P None]).
Proof.
  unfold YieldSplit.handleRedeemPT.
  rewrite (unset_Some _ ptTxId_set), pt_found.
  rewrite (buildPTCommitment_inv P E _ P_u64 E_u32 pt_commitment).
  cbn [bind YieldSplit.pt_expiry YieldSplit.principal].
  rewrite num_lt_num. now destruct (currentTime <? E).
Qed.

End RedeemPT.

(** C7. For a PT with principal [P] and expiry [E], [handleRedeemPT]
    stops with the not-yet-matured failure whenever [currentTime < E], in
    particular at [currentTime = E - 1], and whenever [currentTime >= E]
    it sends a redeem transaction whose only output pays exactly [P] to
    the owner and carries no token, so the PT is in no output. *)
Theorem redeemPT_gating
    (userUtxos : list Utxo) (ownerAddress ptTxId : string) (ptVout : number)
    (ptUtxo : Utxo) (P E currentTime : Z) :
  u64 P -> u32 E -> ptTxId <> EmptyString ->
  YieldSplit.find_nft userUtxos (Some ptTxId) ptVout = Some ptUtxo ->
  YieldSplit.buildPTCommitment P (num E) = Ok (commitment_of ptUtxo) ->
  (currentTime < E ->
   YieldSplit.handleRedeemPT userUtxos ownerAddress (Some ptTxId) ptVout (num currentTime)
   = Exit NotYetMatured)
  /\ YieldSplit.handleRedeemPT userUtxos ownerAddress (Some ptTxId) ptVout (num (E - 1))
     = Exit NotYetMatured
  /\ (E <= currentTime ->
      YieldSplit.handleRedeemPT userUtxos ownerAddress (Some ptTxId) ptVout (num currentTime)
      = Sent (YieldSplit.mkTx (YieldSplit.redeemPT (num currentTime))
                [YieldSplit.nft_input ptUtxo (commitment_of ptUtxo)]
                [mkOutput ownerAddress P None])).
Proof.
  intros HP HE Hid Hfound Hc.
  pose proof (handleRedeemPT_cases userUtxos ownerAddress ptTxId ptVout ptUtxo P E
                HP HE Hid Hfound Hc) as Hcases.
  repeat split.
  - intros Hlt. rewrite Hcases. destruct (Z.ltb_spec currentTime E); [reflexivity | lia].
  - rewrite Hcases. destruct (Z.ltb_spec (E - 1) E); [reflexivity | lia].
  - intros Hge. rewrite Hcases. destruct (Z.ltb_spec currentTime E); [lia | reflexivity].
Qed.

Lemma redeemPT_gating_witness :
  (u64 50000 /\ u32 500000)
  /\ YieldSplit.handleRedeemPT [nft_utxo "aa" 0 "cat" "000000000000c3500007a120"]
       "owner" (Some "aa") (num 0) (num (500000 - 1))
     = Exit NotYetMatured
  /\ YieldSplit.handleRedeemPT [nft_utxo "aa" 0 "cat" "000000000000c3500007a120"]
       "owner" (Some "aa") (num 0) (num 500000)
     = Sent (YieldSplit.mkTx (YieldSplit.redeemPT (num 500000))
               [nft_utxo "aa" 0 "cat" "000000000000c3500007a120"]
               [mkOutput "owner" 50000 None]).
Proof.
  assert (H64 : u64 50000) by (unfold u64; lia).
  assert (H32 : u32 500000) by (unfold u32; lia).
  split; [now split | ].
  pose proof (redeemPT_gating
                [nft_utxo "aa" 0 "cat" "000000000000c3500007a120"]
                "owner" "aa" (num 0)
                (nft_utxo "aa" 0 "cat" "000000000000c3500007a120")
                50000 500000 500000 H64 H32
                ltac:(discriminate) eq_refl eq_refl) as [_ [Hbefore Hat]].
  split; [exact Hbefore | apply Hat; lia].
Defined.

(** ** Yield splitting: claiming yield *)

Lemma writeBigUInt64BE_cases (v : Z) :
  writeBigUInt64BE v = if u64b v then Ok (be_bytes 8 v) else Throw RangeError.
Proof.
  unfold writeBigUInt64BE, u64b.
  destruct (Z.ltb_spec v 0), (Z.ltb_spec (2 ^ 64 - 1) v),
    (Z.leb_spec 0 v), (Z.ltb_spec v (2 ^ 64)); simpl; auto; lia.
Qed.

Lemma u64b_true (v : Z) : u64b v = true <-> u64 v.
Proof.
  unfold u64b, u64. rewrite andb_true_iff, Z.leb_le, Z.ltb_lt. tauto.
Qed.

(** The accrual of a partial claim: [BigInt(elapsed * yieldRate / 10000)]
    is the exact quotient when 10000 divides the product and a
    [RangeError] otherwise. *)
Lemma accrual_cases (elapsed yieldRate : Z) :
  BigInt_of_number (num_div (num_mul (num elapsed) (num yieldRate)) (num 10000))
  = if (elapsed * yieldRate) mod 10000 =? 0
    then Ok (elapsed * yieldRate / 10000)
    else Throw RangeError.
Proof.
  unfold BigInt_of_number, num_div, num_mul, num.
  change (Qeq_bool (inject_Z 10000) 0) with false. cbv iota.
  cbn [Qdiv Qmult Qinv inject_Z Qnum Qden].
  now rewrite Z.mul_1_r.
Qed.

Section ClaimYield.

Variables (userUtxos : list Utxo) (ownerAddress ytTxId : string) (ytVout : number).
Variables (ytUtxo : Utxo) (Y E : Z).

Hypothesis Y_u64 : u64 Y.
Hypothesis E_u32 : u32 E.
Hypothesis ytTxId_set : ytTxId <> EmptyString.
Hypothesis yt_found :
  YieldSplit.find_nft userUtxos (Some ytTxId) ytVout = Some ytUtxo.
Hypothesis yt_commitment :
  YieldSplit.buildYTCommitment Y (num E) = Ok (commitment_of ytUtxo).

Let claim (currentTime yieldRate : Z) (outputs : list Output) :=
  Sent (YieldSplit.mkTx (YieldSplit.claimYield (num currentTime) (num yieldRate))
          [YieldSplit.nft_input ytUtxo (commitment_of ytUtxo)] outputs).

Lemma handleClaimYield_cases (currentTime yieldRate : Z) :
  YieldSplit.handleClaimYield userUtxos ownerAddress (Some ytTxId) ytVout
    (num currentTime) (num yieldRate)
  = if E <=? currentTime then
      claim currentTime yieldRate [mkOutput ownerAddress Y None]
    else if negb ((currentTime * yieldRate) mod 10000 =? 0) then Caught RangeError
    else if negb (u64b (Y + currentTime * yieldRate / 10000)) then Caught RangeError
    else claim currentTime yieldRate
           [YieldSplit.nft_output ownerAddress (category_of ytUtxo)
              (hex_field 8 (Y + currentTime * yieldRate / 10000) ++ hex_field 4 E)].
Proof.
  unfold YieldSplit.handleClaimYield.
  rewrite (unset_Some _ ytTxId_set), yt_found.
  rewrite (buildYTCommitment_inv Y E _ Y_u64 E_u32 yt_commitment).
  cbn [bind YieldSplit.yt_expiry YieldSplit.yieldAccrued].
  rewrite num_ge_num. destruct (E <=? currentTime); [reflexivity | ].
  rewrite accrual_cases.
  destruct ((currentTime * yieldRate) mod 10000 =? 0); [ | reflexivity].
  cbn [bind negb]. unfold YieldSplit.buildYTCommitment.
  rewrite writeBigUInt64BE_cases.
  destruct (u64b (Y + currentTime * yieldRate / 10000)); [ | reflexivity].
  cbn [bind negb]. now rewrite (writeUInt32BE_u32 E E_u32).
Qed.

End ClaimYield.

(** C4 (amended). For a YT with accrued yield [Y] and expiry [E], a
    current time with [0 <= currentTime < E] and a yield rate
    [yieldRate >= 0] whose product is a multiple of 10000 (and below
    [2^53]), [handleClaimYield] sends an updated YT with the same expiry
    and the yield [Y + currentTime * yieldRate / 10000], provided that
    value fits 8 bytes.  The elapsed time is the current time itself: it
    stays below [E] only because this branch is taken when
    [currentTime < E], and no mint or last-claim time enters the
    computation.  The new yield is never below [Y]. *)
Theorem claimYield_before_expiry
    (userUtxos : list Utxo) (ownerAddress ytTxId : string) (ytVout : number)
    (ytUtxo : Utxo) (Y E currentTime yieldRate : Z) :
  u64 Y -> u32 E -> ytTxId <> EmptyString ->
  YieldSplit.find_nft userUtxos (Some ytTxId) ytVout = Some ytUtxo ->
  YieldSplit.buildYTCommitment Y (num E) = Ok (commitment_of ytUtxo) ->
  0 <= currentTime < E -> 0 <= yieldRate ->
  currentTime * yieldRate < 2 ^ 53 ->
  (currentTime * yieldRate) mod 10000 = 0 ->
  u64 (Y + currentTime * yieldRate / 10000) ->
  exists newYtCommitment,
    YieldSplit.buildYTCommitment (Y + currentTime * yieldRate / 10000) (num E)
    = Ok newYtCommitment
    /\ YieldSplit.parseYTCommitment newYtCommitment
       = Ok (YieldSplit.mkYT (Y + currentTime * yieldRate / 10000) (num E))
    /\ YieldSplit.handleClaimYield userUtxos ownerAddress (Some ytTxId) ytVout
         (num currentTime) (num yieldRate)
       = Sent (YieldSplit.mkTx
                 (YieldSplit.claimYield (num currentTime) (num yieldRate))
                 [YieldSplit.nft_input ytUtxo (commitment_of ytUtxo)]
                 [YieldSplit.nft_output ownerAddress (category_of ytUtxo)
                    newYtCommitment])
    /\ Y <= Y + currentTime * yieldRate / 10000.
Proof.
  intros HY HE Hid Hfound Hc Ht Hrate Hsafe Hdiv Hfit.
  exists (hex_field 8 (Y + currentTime * yieldRate / 10000) ++ hex_field 4 E).
  split; [now apply buildYTCommitment_ok | ].
  split; [now apply parseYTCommitment_ok | ].
  split.
  - rewrite (handleClaimYield_cases userUtxos ownerAddress ytTxId ytVout ytUtxo Y E
               HY HE Hid Hfound Hc).
    destruct (Z.leb_spec E currentTime); [lia | ].
    rewrite Hdiv. apply u64b_true in Hfit. now rewrite Hfit.
  - assert (0 <= currentTime * yieldRate / 10000)
      by (apply Z.div_pos; [apply Z.mul_nonneg_nonneg | ]; lia).
    lia.
Qed.

Lemma claimYield_before_expiry_witness :
  (u64 1000 /\ u32 500000 /\ 0 <= 250000 < 500000 /\ 0 <= 500
   /\ 250000 * 500 < 2 ^ 53 /\ (250000 * 500) mod 10000 = 0)
  /\ YieldSplit.handleClaimYield [nft_utxo "bb" 1 "cat" "00000000000003e80007a120"]
       "owner" (Some "bb") (num 1) (num 250000) (num 500)
     = Sent (YieldSplit.mkTx (YieldSplit.claimYield (num 250000) (num 500))
               [nft_utxo "bb" 1 "cat" "00000000000003e80007a120"]
               [YieldSplit.nft_output "owner" "cat" "00000000000034bc0007a120"]).
Proof.
  assert (H64 : u64 1000) by (unfold u64; lia).
  assert (H32 : u32 500000) by (unfold u32; lia).
  assert (Hfit : u64 (1000 + 250000 * 500 / 10000)) by (unfold u64; simpl; lia).
  split; [repeat split; try reflexivity; try lia; apply H64 || apply H32 | ].
  destruct (claimYield_before_expiry
              [nft_utxo "bb" 1 "cat" "00000000000003e80007a120"]
              "owner" "bb" (num 1)
              (nft_utxo "bb" 1 "cat" "00000000000003e80007a120")
              1000 500000 250000 500 H64 H32
              ltac:(discriminate) eq_refl eq_refl
              ltac:(lia) ltac:(lia) ltac:(lia) eq_refl Hfit)
    as [c [Hbuild [_ [Hsent _]]]].
  rewrite Hsent. vm_compute in Hbuild. apply Ok_inj in Hbuild.
  rewrite <- Hbuild. reflexivity.
Defined.

(** C4 as stated fails.  With [CURRENT_TIME=250001] and [YIELD_RATE=500]
    on a YT (1000, 500000) the script throws a [RangeError] instead of
    adding the floor, 12500.  With [CURRENT_TIME=450000] on a YT last
    claimed at 400000 it writes the yield 23500, although the capped
    accrual of the specification is 3500 for the 50000 elapsed since the
    last claim and 6000 even if the elapsed time is taken to be the
    current time.  With [YIELD_RATE=-20] the yield drops to 500.  On a
    YT whose yield is [2^64 - 1] a claim that adds 1 throws a
    [RangeError], the new yield not fitting 8 bytes. *)
Lemma claimYield_before_expiry_counterexample :
  (YieldSplit.handleClaimYield [nft_utxo "bb" 1 "cat" "00000000000003e80007a120"]
     "owner" (Some "bb") (num 1) (num 250001) (num 500)
   = Caught RangeError
   /\ Spec.accrue 1000 250001 500 500000 0 = 13500)
  /\ (yield_of (YieldSplit.handleClaimYield
                  [nft_utxo "bb" 1 "cat" "00000000000003e80007a120"]
                  "owner" (Some "bb") (num 1) (num 450000) (num 500))
      = Some 23500
      /\ Spec.accrue 1000 (450000 - 400000) 500 500000 400000 = 3500
      /\ Spec.accrue 1000 450000 500 500000 400000 = 6000)
  /\ yield_of (YieldSplit.handleClaimYield
                 [nft_utxo "bb" 1 "cat" "00000000000003e80007a120"]
                 "owner" (Some "bb") (num 1) (num 250000) (num (-20)))
     = Some 500
  /\ YieldSplit.handleClaimYield [nft_utxo "bb" 1 "cat" "ffffffffffffffff0007a120"]
       "owner" (Some "bb") (num 1) (num 10000) (num 1)
     = Caught RangeError.
Proof. repeat split; vm_compute; reflexivity. Qed.

(** ** Yield splitting: repeated claims *)

Lemma find_nft_single (u : Utxo) :
  has_capability cap_none u = true ->
  YieldSplit.find_nft [u] (Some (utxo_txid u)) (num (utxo_vout u)) = Some u.
Proof.
  intros Hcap. unfold YieldSplit.find_nft. cbn [find env_eqb].
  now rewrite String.eqb_refl, num_eq_num, Hcap.
Qed.

(** Claims against an output that carries no immutable NFT produce no YT. *)
Lemma claim_run_without_nft (ownerAddress : string) (yieldRate : number) (u : Utxo)
    (steps : list (number * string)) :
  has_capability cap_none u = false ->
  yields_of (claim_run ownerAddress yieldRate u steps) = [].
Proof.
  intros Hcap. destruct steps as [|[currentTime txid] rest]; [reflexivity | ].
  cbn [claim_run]. unfold YieldSplit.handleClaimYield, YieldSplit.find_nft.
  cbn [find]. rewrite Hcap, andb_false_r.
  now destruct (unset (Some (utxo_txid u))).
Qed.

Section ClaimRun.

Variables (ownerAddress : string) (E yieldRate : Z).
Hypothesis E_u32 : u32 E.
Hypothesis rate_nonneg : 0 <= yieldRate.

Lemma claim_run_sorted (steps : list (Z * string)) :
  Forall (fun s => 0 <= fst s) steps ->
  forall (yt : Utxo) (Y : Z),
    u64 Y ->
    has_capability cap_none yt = true ->
    YieldSplit.buildYTCommitment Y (num E) = Ok (commitment_of yt) ->
    Sorted Z.le (Y :: yields_of (claim_run ownerAddress (num yieldRate) yt (timed steps))).
Proof.
  induction 1 as [|[t txid] rest Ht _ IH]; intros yt Y HY Hcap Hc.
  { repeat constructor. }
  cbn [timed map claim_run fst snd]. fold (timed rest).
  destruct (String.eqb_spec (utxo_txid yt) EmptyString) as [Hid | Hid].
  { unfold YieldSplit.handleClaimYield. cbn [unset]. rewrite Hid.
    repeat constructor. }
  rewrite (handleClaimYield_cases [yt] ownerAddress (utxo_txid yt)
             (num (utxo_vout yt)) yt Y E HY E_u32 Hid (find_nft_single yt Hcap) Hc).
  destruct (E <=? t).
  { (* at or after expiry: the payout carries no token *)
    cbn [yields_of yield_of YieldSplit.tx_to out_token outputs_at out_to out_amount].
    rewrite String.eqb_refl, claim_run_without_nft by reflexivity.
    repeat constructor. }
  destruct ((t * yieldRate) mod 10000 =? 0); [ | repeat constructor].
  destruct (u64b (Y + t * yieldRate / 10000)) eqn:Hfit; [ | repeat constructor].
  apply u64b_true in Hfit.
  cbn [negb yields_of yield_of YieldSplit.tx_to YieldSplit.nft_output nft_commitment
       outputs_at out_to out_amount out_token].
  rewrite String.eqb_refl, (parseYTCommitment_ok _ _ Hfit E_u32).
  cbn [YieldSplit.yieldAccrued]. cbn [fst] in Ht.
  assert (Hle : Y <= Y + t * yieldRate / 10000).
  { assert (0 <= t * yieldRate / 10000)
      by (apply Z.div_pos; [apply Z.mul_nonneg_nonneg | ]; lia).
    lia. }
  constructor; [ | now constructor].
  apply IH; [exact Hfit | reflexivity | ].
  now apply buildYTCommitment_ok.
Qed.

End ClaimRun.

Lemma last_cons_nonempty {A : Type} (x y : A) (l : list A) (d d' : A) :
  last (x :: y :: l) d = last (y :: l) d'.
Proof.
  revert x y. induction l as [|z l IH]; intros x y; [reflexivity | ].
  change (last (x :: y :: z :: l) d) with (last (y :: z :: l) d).
  change (last (y :: z :: l) d') with (last (z :: l) d').
  change (last (y :: z :: l) d) with (last (z :: l) d).
  destruct l as [|w l]; [reflexivity | ].
  apply (IH z w).
Qed.

Section FinalClaim.

Variables (ownerAddress : string) (E yieldRate finalTime : Z) (finalTxid : string).
Hypothesis E_u32 : u32 E.
Hypothesis final_at_expiry : E <= finalTime.

Lemma claim_run_final (steps : list (Z * string)) :
  Forall (fun s => fst s < E /\ snd s <> EmptyString) steps ->
  forall (yt : Utxo) (Y : Z),
    u64 Y ->
    has_capability cap_none yt = true ->
    utxo_txid yt <> EmptyString ->
    YieldSplit.buildYTCommitment Y (num E) = Ok (commitment_of yt) ->
    List.length (claim_run ownerAddress (num yieldRate) yt
                   (timed (steps ++ [(finalTime, finalTxid)])%list))
    = S (List.length steps) ->
    payout_of (last (claim_run ownerAddress (num yieldRate) yt
                       (timed (steps ++ [(finalTime, finalTxid)])%list))
                    (Exit MissingEnv))
    = Some (last (Y :: yields_of (claim_run ownerAddress (num yieldRate) yt
                                    (timed (steps ++ [(finalTime, finalTxid)])%list)))
                 Y).
Proof.
  induction 1 as [|[t txid] rest [Ht Htxid] _ IH]; intros yt Y HY Hcap Hid Hc Hlen.
  - cbn [app timed map claim_run fst snd] in *.
    rewrite (handleClaimYield_cases [yt] ownerAddress (utxo_txid yt)
               (num (utxo_vout yt)) yt Y E HY E_u32 Hid (find_nft_single yt Hcap) Hc)
      in *.
    destruct (Z.leb_spec E finalTime); [ | lia].
    cbn [outputs_at YieldSplit.tx_to out_to out_amount out_token].
    rewrite String.eqb_refl. reflexivity.
  - cbn [app timed map claim_run fst snd] in *.
    fold (timed (rest ++ [(finalTime, finalTxid)])%list) in *.
    rewrite (handleClaimYield_cases [yt] ownerAddress (utxo_txid yt)
               (num (utxo_vout yt)) yt Y E HY E_u32 Hid (find_nft_single yt Hcap) Hc)
      in *.
    cbn [fst snd] in Ht, Htxid.
    destruct (Z.leb_spec E t); [lia | ].
    destruct ((t * yieldRate) mod 10000 =? 0);
      [ | cbn in Hlen; destruct rest; discriminate].
    destruct (u64b (Y + t * yieldRate / 10000)) eqn:Hfit;
      [ | cbn in Hlen; destruct rest; discriminate].
    apply u64b_true in Hfit.
    cbn [negb YieldSplit.tx_to YieldSplit.nft_output outputs_at
         out_to out_amount out_token] in *.
    rewrite String.eqb_refl in *.
    cbn [yields_of yield_of YieldSplit.tx_to YieldSplit.nft_output nft_commitment].
    rewrite (parseYTCommitment_ok _ _ Hfit E_u32).
    cbn [YieldSplit.yieldAccrued].
    set (yt' := mkUtxo txid 0 1000 _) in *.
    cbn [List.length] in Hlen. apply Nat.succ_inj in Hlen.
    specialize (IH yt' (Y + t * yieldRate / 10000) Hfit eq_refl Htxid
                  (buildYTCommitment_ok _ _ Hfit E_u32) Hlen).
    destruct (claim_run ownerAddress (num yieldRate) yt'
                (timed (rest ++ [(finalTime, finalTxid)])%list)) as [|o os] eqn:Hrun;
      [discriminate | ].
    rewrite (last_cons_nonempty _ o os _ (Exit MissingEnv)).
    rewrite IH.
    f_equal. symmetry. apply last_cons_nonempty.
Qed.

End FinalClaim.

(** C9 (the scripts diverge).  At or after expiry [handleClaimYield]
    pays the accrued yield as it is stored in the commitment and accrues
    nothing for the term.  A YT (0, 500000) claimed at
    [CURRENT_TIME=500000] with [YIELD_RATE=500] pays 0, and after partial
    claims at 100000 and 200000 it pays 15000, while the maximum term
    yield for that rate and term, with the elapsed time capped at the
    expiry, is 25000. *)
Theorem claimYield_at_expiry_pays_stored_yield :
  payout_of (YieldSplit.handleClaimYield
               [nft_utxo "bb" 1 "cat" "00000000000000000007a120"]
               "owner" (Some "bb") (num 1) (num 500000) (num 500))
  = Some 0
  /\ payout_of (last (claim_run "owner" (num 500)
                        (nft_utxo "bb" 1 "cat" "00000000000000000007a120")
                        (timed [(100000, "t1"); (200000, "t2"); (500000, "t3")]))
                     (Exit MissingEnv))
     = Some 15000
  /\ Spec.maxTermYield 500 500000 0 = 25000.
Proof. repeat split; vm_compute; reflexivity. Qed.

(** ** Yield splitting: merging *)

Section Merge.

Variables (userUtxos : list Utxo) (ownerAddress ptTxId ytTxId : string).
Variables (ptVout ytVout : number) (ptUtxo ytUtxo : Utxo) (P Y Ept Eyt : Z).

Hypothesis P_u64 : u64 P.
Hypothesis Y_u64 : u64 Y.
Hypothesis Ept_u32 : u32 Ept.
Hypothesis Eyt_u32 : u32 Eyt.
Hypothesis ptTxId_set : ptTxId <> EmptyString.
Hypothesis ytTxId_set : ytTxId <> EmptyString.
Hypothesis pt_found :
  YieldSplit.find_nft userUtxos (Some ptTxId) ptVout = Some ptUtxo.
Hypothesis yt_found :
  YieldSplit.find_nft userUtxos (Some ytTxId) ytVout = Some ytUtxo.
Hypothesis pt_commitment :
  YieldSplit.buildPTCommitment P (num Ept) = Ok (commitment_of ptUtxo).
Hypothesis yt_commitment :
  YieldSplit.buildYTCommitment Y (num Eyt) = Ok (commitment_of ytUtxo).

(** Whatever the two expiries are, the merge transaction is sent and its
    output is the receipt of the principal. *)
Lemma handleMerge_sends :
  YieldSplit.handleMerge userUtxos ownerAddress (Some ptTxId) ptVout (Some ytTxId) ytVout
  = Sent (YieldSplit.mkTx YieldSplit.merge
            [YieldSplit.nft_input ptUtxo (commitment_of ptUtxo);
             YieldSplit.nft_input ytUtxo (commitment_of ytUtxo)]
            [YieldSplit.nft_output ownerAddress (category_of ptUtxo) (hex_field 8 P)]).
Proof.
  unfold YieldSplit.handleMerge.
  rewrite (unset_Some _ ptTxId_set), (unset_Some _ ytTxId_set), pt_found, yt_found.
  rewrite (buildPTCommitment_inv P Ept _ P_u64 Ept_u32 pt_commitment).
  rewrite (buildYTCommitment_inv Y Eyt _ Y_u64 Eyt_u32 yt_commitment).
  cbn [orb bind YieldSplit.principal].
  now rewrite (writeBigUInt64BE_u64 P P_u64).
Qed.

End Merge.

(** C1 (the scripts diverge).  [handleMerge] parses the expiry of the YT
    and never compares it with the expiry of the PT.  For the PT (50000,
    500000) and the YT (1000, 600000) it sends a merge transaction whose
    output is the receipt of 50000; it does not fail. *)
Theorem handleMerge_mismatched_expiry :
  YieldSplit.parsePTCommitment "000000000000c3500007a120"
  = Ok (YieldSplit.mkPT 50000 (num 500000))
  /\ YieldSplit.parseYTCommitment "00000000000003e8000927c0"
     = Ok (YieldSplit.mkYT 1000 (num 600000))
  /\ YieldSplit.handleMerge
       [nft_utxo "aa" 0 "cat" "000000000000c3500007a120";
        nft_utxo "bb" 1 "cat" "00000000000003e8000927c0"]
       "owner" (Some "aa") (num 0) (Some "bb") (num 1)
     = Sent (YieldSplit.mkTx YieldSplit.merge
               [nft_utxo "aa" 0 "cat" "000000000000c3500007a120";
                nft_utxo "bb" 1 "cat" "00000000000003e8000927c0"]
               [YieldSplit.nft_output "owner" "cat" "000000000000c350"]).
Proof. repeat split; vm_compute; reflexivity. Qed.

(** ** The DEX facet *)

(** C6. The swap quote is [amountIn] minus the fee
    [amountIn * feeBps / 10000], a bigint division that truncates toward
    zero: the fee is the floor of the magnitude of the quotient, with the
    sign of the product.  With 10000 in and 30 basis points, given or by
    default, the quote is 9970 in either direction. *)
Theorem calculateSwapOutput_quote (amountIn feeBps : Z) (zeroForOne : bool) :
  Dex.calculateSwapOutput amountIn zeroForOne (Some (num feeBps))
  = Ok (amountIn - Z.quot (amountIn * feeBps) 10000)
  /\ Z.quot (amountIn * feeBps) 10000
     = Z.sgn (amountIn * feeBps) * (Z.abs (amountIn * feeBps) / 10000)
  /\ Dex.calculateSwapOutput 10000 zeroForOne (Some (num 30)) = Ok 9970
  /\ Dex.calculateSwapOutput 10000 zeroForOne None = Ok 9970.
Proof.
  repeat split.
  - unfold Dex.calculateSwapOutput.
    now rewrite !BigInt_of_number_num.
  - rewrite Z.quot_div by lia. change (Z.sgn 10000) with 1.
    change (Z.abs 10000) with 10000. now rewrite Z.mul_1_r.
Qed.

(** C10. The swap quote does not depend on the direction of the trade:
    with the same amount and fee, [zeroForOne = true] and
    [zeroForOne = false] give the same result. *)
Theorem calculateSwapOutput_direction (amountIn : Z) (fee : option number) :
  Dex.calculateSwapOutput amountIn true fee
  = Dex.calculateSwapOutput amountIn false fee.
Proof. reflexivity. Qed.

(** For any two ticks that fit 4 unsigned bytes, in either order, the
    [add] case sends the position it was asked for. *)
Lemma main_add_sends (contractAddress ownerAddress : string)
    (amount0 amount1 lower upper : Z) :
  u32 lower -> u32 upper -> u64 (Dex.calculateLiquidity amount0 amount1) ->
  Dex.main_add contractAddress ownerAddress amount0 amount1 (num lower) (num upper)
  = Sent (Dex.mkTx (Dex.addLiquidity amount0 amount1 (num lower) (num upper))
            [Dex.covenant_output contractAddress 1000;
             Dex.nft_output ownerAddress "position"
               (hex_field 4 lower ++ hex_field 4 upper
                ++ hex_field 8 (Dex.calculateLiquidity amount0 amount1))]
            ownerAddress).
Proof.
  intros Hl Hu HL. unfold Dex.main_add.
  now rewrite (buildPositionCommitment_ok lower upper _ Hl Hu HL).
Qed.

(** C8 (the scripts diverge).  The [add] case of [main] performs no tick
    check: with [TICK_LOWER=100] and [TICK_UPPER=50] it builds the
    position commitment of the inverted range and sends it with
    [addLiquidity]. *)
Theorem main_add_inverted_ticks :
  Dex.main_add "contract" "owner" 100000 100000 (num 100) (num 50)
  = Sent (Dex.mkTx (Dex.addLiquidity 100000 100000 (num 100) (num 50))
            [Dex.covenant_output "contract" 1000;
             Dex.nft_output "owner" "position" "000000640000003200000000000186a0"]
            "owner")
  /\ Dex.parsePositionCommitment "000000640000003200000000000186a0"
     = Ok (Dex.mkPosition (num 100) (num 50) 100000).
Proof. split; vm_compute; reflexivity. Qed.

(** ** Staking and unstaking *)

(** What unstake.ts reads from a receipt written by stake.ts: the value
    of the little-endian bytes taken most significant byte first. *)
Lemma unstake_decodes_reversed (stakeAmount : Z) :
  BigInt_of_string ("0x" ++ toString_hex (le_bytes 8 stakeAmount))
  = Ok (be_value (le_bytes 8 stakeAmount)).
Proof.
  apply BigInt_of_hex; [ | apply le_bytes_is_byte].
  intros H. apply (f_equal (@List.length Z)) in H.
  rewrite length_le_bytes in H. discriminate.
Qed.

(** C2 (the scripts diverge).  Staking 50000 against a reserve of 100000
    writes the receipt commitment [50c3000000000000]; unstake.ts decodes
    it as 5819495143492812800 (a multiple of [2^48], which [Number]
    represents exactly), finds the reserve of 150000 insufficient and
    exits.  Nothing is paid out and the reserve is not restored. *)
Theorem stake_then_unstake_50000 :
  receipt_of (Stake.main (Some "wif") 50000 [reserve_utxo] [wallet_utxo] "token" "owner")
  = Some "50c3000000000000"
  /\ BigInt_of_string ("0x" ++ "50c3000000000000") = Ok 5819495143492812800
  /\ stake_then_unstake (Some "wif") 50000 [reserve_utxo] [wallet_utxo]
       "token" "owner" "ee"
     = Exit InsufficientReserve.
Proof. repeat split; vm_compute; reflexivity. Qed.

(** C3 (the scripts diverge).  The stake path writes the 8-byte amount
    least significant byte first, while the merge path writes the same
    receipt field, and the PT, YT and position builders write theirs,
    most significant byte first; the unstake and split paths read it most
    significant byte first.  For 50000 the stake path writes
    [50c3000000000000] where the big-endian field is [000000000000c350]. *)
Theorem stake_commitment_little_endian :
  receipt_of (Stake.main (Some "wif") 50000 [reserve_utxo] [wallet_utxo] "token" "owner")
  = Some (toString_hex (le_bytes 8 50000))
  /\ toString_hex (le_bytes 8 50000) = "50c3000000000000"
  /\ toString_hex (be_bytes 8 50000) = "000000000000c350"
  /\ (bs <- writeBigUInt64BE 50000 ;; Ok (toString_hex bs)) = Ok "000000000000c350"
  /\ YieldSplit.buildPTCommitment 50000 (num 500000) = Ok "000000000000c3500007a120".
Proof. repeat split; vm_compute; reflexivity. Qed.

(* ================================================================= *)
(** * Further properties of the scripts *)

(** ** The builders at and beyond their bounds *)

Lemma u32b_true (v : Z) : u32b v = true <-> u32 v.
Proof.
  unfold u32b, u32. rewrite andb_true_iff, Z.leb_le, Z.ltb_lt. tauto.
Qed.

Lemma writeUInt32BE_cases (v : Z) :
  writeUInt32BE (num v) = if u32b v then Ok (be_bytes 4 v) else Throw RangeError.
Proof.
  unfold writeUInt32BE, num, u32b.
  change 0%Q with (inject_Z 0). rewrite !Qltb_inject_Z, Qfloor_Z.
  destruct (Z.ltb_spec v 0), (Z.ltb_spec (2 ^ 32 - 1) v),
    (Z.leb_spec 0 v), (Z.ltb_spec v (2 ^ 32)); simpl; auto; lia.
Qed.

(** X1. The three commitment builders accept exactly the fields that fit
    their width and otherwise throw a [RangeError]: a principal, yield or
    liquidity outside [[0, 2^64)] or an integer expiry or tick outside
    [[0, 2^32)] is never written wrapped or truncated. *)
Theorem builders_reject_out_of_range (amount expiry lower upper : Z) :
  YieldSplit.buildPTCommitment amount (num expiry)
  = (if u64b amount && u32b expiry
     then Ok (hex_field 8 amount ++ hex_field 4 expiry) else Throw RangeError)
  /\ YieldSplit.buildYTCommitment amount (num expiry)
     = (if u64b amount && u32b expiry
        then Ok (hex_field 8 amount ++ hex_field 4 expiry) else Throw RangeError)
  /\ Dex.buildPositionCommitment (num lower) (num upper) amount
     = (if u32b lower && u32b upper && u64b amount
        then Ok (hex_field 4 lower ++ hex_field 4 upper ++ hex_field 8 amount)
        else Throw RangeError).
Proof.
  unfold YieldSplit.buildPTCommitment, YieldSplit.buildYTCommitment,
    Dex.buildPositionCommitment.
  rewrite !writeUInt32BE_cases, !writeBigUInt64BE_cases.
  destruct (u64b amount), (u32b expiry), (u32b lower), (u32b upper);
    repeat split.
Qed.

Lemma length_hex_of_write32 (e : number) (bs : buffer) :
  writeUInt32BE e = Ok bs -> String.length (toString_hex bs) = 8%nat.
Proof.
  unfold writeUInt32BE. intros H.
  destruct e as [|q]; [ | destruct (Qltb q 0 || Qltb (inject_Z (2 ^ 32 - 1)) q)];
    try discriminate; apply Ok_inj in H; subst bs; apply (length_hex_be_bytes 4).
Qed.

Lemma length_hex_of_write64 (v : Z) (bs : buffer) :
  writeBigUInt64BE v = Ok bs -> String.length (toString_hex bs) = 16%nat.
Proof.
  unfold writeBigUInt64BE. intros H.
  destruct ((v <? 0) || (2 ^ 64 - 1 <? v)); try discriminate.
  apply Ok_inj in H; subst bs; apply (length_hex_be_bytes 8).
Qed.

(** X2. Commitments have a fixed width: whatever the fields, a PT or YT
    commitment that is built has 24 hexadecimal characters and a position
    commitment 32 (the length the [remove] and [collect] cases look
    for), also for a [NaN] or fractional expiry or tick. *)
Theorem built_commitments_have_fixed_width
    (amount : Z) (expiry lower upper : number) (c : string) :
  (YieldSplit.buildPTCommitment amount expiry = Ok c -> String.length c = 24%nat)
  /\ (YieldSplit.buildYTCommitment amount expiry = Ok c -> String.length c = 24%nat)
  /\ (Dex.buildPositionCommitment lower upper amount = Ok c
      -> String.length c = 32%nat).
Proof.
  unfold YieldSplit.buildPTCommitment, YieldSplit.buildYTCommitment,
    Dex.buildPositionCommitment.
  repeat split; intros H.
  - destruct (writeBigUInt64BE amount) as [a|] eqn:Ha; [ | discriminate].
    destruct (writeUInt32BE expiry) as [e|] eqn:He; [ | discriminate].
    apply Ok_inj in H; subst c.
    now rewrite length_append, (length_hex_of_write64 _ _ Ha),
      (length_hex_of_write32 _ _ He).
  - destruct (writeBigUInt64BE amount) as [a|] eqn:Ha; [ | discriminate].
    destruct (writeUInt32BE expiry) as [e|] eqn:He; [ | discriminate].
    apply Ok_inj in H; subst c.
    now rewrite length_append, (length_hex_of_write64 _ _ Ha),
      (length_hex_of_write32 _ _ He).
  - destruct (writeUInt32BE lower) as [l|] eqn:Hl; [ | discriminate].
    destruct (writeUInt32BE upper) as [u|] eqn:Hu; [ | discriminate].
    destruct (writeBigUInt64BE amount) as [a|] eqn:Ha; [ | discriminate].
    apply Ok_inj in H; subst c.
    now rewrite !length_append, (length_hex_of_write64 _ _ Ha),
      (length_hex_of_write32 _ _ Hl), (length_hex_of_write32 _ _ Hu).
Qed.

Lemma built_commitments_have_fixed_width_witness :
  YieldSplit.buildPTCommitment 50000 NaN = Ok "000000000000c35000000000"
  /\ String.length "000000000000c35000000000" = 24%nat.
Proof.
  split; [reflexivity | ].
  apply (built_commitments_have_fixed_width 50000 NaN NaN NaN
           "000000000000c35000000000").
  reflexivity.
Defined.

(** ** Splitting a receipt, and what follows a split *)

Section Split.

Variables (userUtxos : list Utxo) (ownerAddress nftTxId : string) (nftVout : number).
Variables (nftUtxo : Utxo) (P : Z).

Hypothesis P_u64 : u64 P.
Hypothesis nftTxId_set : nftTxId <> EmptyString.
Hypothesis nft_found :
  YieldSplit.find_nft userUtxos (Some nftTxId) nftVout = Some nftUtxo.
Hypothesis nft_commitment : commitment_of nftUtxo = hex_field 8 P.

(** The expiry as given and the integer its four bytes hold: [E] itself
    for an integer that fits, 0 for [NaN]. *)
Variables (expiry : number) (E : Z).
Hypothesis expiry_written : writeUInt32BE expiry = Ok (be_bytes 4 E).

Let pt_output : Output :=
  YieldSplit.nft_output ownerAddress (category_of nftUtxo)
    (hex_field 8 P ++ hex_field 4 E).
Let yt_output : Output :=
  YieldSplit.nft_output ownerAddress (category_of nftUtxo)
    (hex_field 8 0 ++ hex_field 4 E).

Lemma handleSplit_sends :
  YieldSplit.handleSplit userUtxos ownerAddress (Some nftTxId) nftVout expiry
  = Sent (YieldSplit.mkTx (YieldSplit.split expiry)
            [YieldSplit.nft_input nftUtxo (commitment_of nftUtxo)]
            [pt_output; yt_output]).
Proof.
  unfold YieldSplit.handleSplit.
  rewrite (unset_Some _ nftTxId_set), nft_found.
  rewrite nft_commitment at 1.
  rewrite (BigInt_of_hex_field_u64 P P_u64). cbn [bind].
  unfold YieldSplit.buildPTCommitment, YieldSplit.buildYTCommitment.
  rewrite (writeBigUInt64BE_u64 P P_u64), expiry_written.
  rewrite (writeBigUInt64BE_u64 0) by (unfold u64; lia).
  reflexivity.
Qed.

Variable txid : string.
Hypothesis txid_set : txid <> EmptyString.

Let pt_utxo : Utxo := mkUtxo txid 0 1000 (out_token pt_output).
Let yt_utxo : Utxo := mkUtxo txid 1 1000 (out_token yt_output).

Lemma split_outputs :
  outputs_at ownerAddress txid 0 [pt_output; yt_output] = [pt_utxo; yt_utxo].
Proof.
  cbn [outputs_at pt_output yt_output YieldSplit.nft_output out_to out_amount].
  now rewrite String.eqb_refl.
Qed.

Lemma split_pt_found :
  YieldSplit.find_nft [pt_utxo; yt_utxo] (Some txid) (num 0) = Some pt_utxo.
Proof.
  unfold YieldSplit.find_nft. cbn [find env_eqb pt_utxo utxo_txid].
  now rewrite String.eqb_refl.
Qed.

Lemma split_yt_found :
  YieldSplit.find_nft [pt_utxo; yt_utxo] (Some txid) (num 1) = Some yt_utxo.
Proof.
  unfold YieldSplit.find_nft.
  cbn [find env_eqb pt_utxo yt_utxo utxo_txid utxo_vout].
  rewrite String.eqb_refl.
  change (num_eq (num 0) (num 1)) with false.
  reflexivity.
Qed.

Hypothesis E_u32 : u32 E.

Lemma split_then_merge_sends :
  split_then_merge userUtxos ownerAddress (Some nftTxId) nftVout expiry txid
  = Sent (YieldSplit.mkTx YieldSplit.merge
            [pt_utxo; yt_utxo]
            [YieldSplit.nft_output ownerAddress (category_of nftUtxo)
               (commitment_of nftUtxo)]).
Proof.
  unfold split_then_merge. rewrite handleSplit_sends.
  cbn [YieldSplit.tx_to]. rewrite split_outputs.
  rewrite (handleMerge_sends [pt_utxo; yt_utxo] ownerAddress txid txid
             (num 0) (num 1) pt_utxo yt_utxo P 0 E E P_u64
             ltac:(unfold u64; lia) E_u32 E_u32 txid_set txid_set
             split_pt_found split_yt_found
             (buildPTCommitment_ok P E P_u64 E_u32)
             (buildYTCommitment_ok 0 E ltac:(unfold u64; lia) E_u32)).
  now rewrite nft_commitment.
Qed.

Lemma split_then_redeem_cases (currentTime : Z) :
  split_then_redeem userUtxos ownerAddress (Some nftTxId) nftVout expiry txid
    (num currentTime)
  = if currentTime <? E then Exit NotYetMatured
    else Sent (YieldSplit.mkTx (YieldSplit.redeemPT (num currentTime))
                 [pt_utxo] [mkOutput ownerAddress P None]).
Proof.
  unfold split_then_redeem. rewrite handleSplit_sends.
  cbn [YieldSplit.tx_to]. rewrite split_outputs.
  now rewrite (handleRedeemPT_cases [pt_utxo; yt_utxo] ownerAddress txid (num 0)
                 pt_utxo P E P_u64 E_u32 txid_set split_pt_found
                 (buildPTCommitment_ok P E P_u64 E_u32)).
Qed.

End Split.

(** X3. [handleSplit] on a receipt whose commitment is the 8-byte
    big-endian principal [P], with an expiry [E] that fits 4 bytes, sends
    a split transaction that spends the receipt and mints two immutable
    NFTs of the receipt's category to the owner: a PT that parses as
    ([P], [E]) and a YT that parses as (0, [E]). *)
Theorem handleSplit_mints_pair
    (userUtxos : list Utxo) (ownerAddress nftTxId : string) (nftVout : number)
    (nftUtxo : Utxo) (P E : Z) :
  u64 P -> u32 E -> nftTxId <> EmptyString ->
  YieldSplit.find_nft userUtxos (Some nftTxId) nftVout = Some nftUtxo ->
  commitment_of nftUtxo = hex_field 8 P ->
  exists ptCommitment ytCommitment,
    YieldSplit.handleSplit userUtxos ownerAddress (Some nftTxId) nftVout (num E)
    = Sent (YieldSplit.mkTx (YieldSplit.split (num E))
              [YieldSplit.nft_input nftUtxo (commitment_of nftUtxo)]
              [YieldSplit.nft_output ownerAddress (category_of nftUtxo) ptCommitment;
               YieldSplit.nft_output ownerAddress (category_of nftUtxo) ytCommitment])
    /\ YieldSplit.parsePTCommitment ptCommitment = Ok (YieldSplit.mkPT P (num E))
    /\ YieldSplit.parseYTCommitment ytCommitment = Ok (YieldSplit.mkYT 0 (num E)).
Proof.
  intros HP HE Hid Hfound Hc.
  exists (hex_field 8 P ++ hex_field 4 E), (hex_field 8 0 ++ hex_field 4 E).
  split; [ | split].
  - apply (handleSplit_sends userUtxos ownerAddress nftTxId nftVout nftUtxo P
             HP Hid Hfound Hc (num E) E (writeUInt32BE_u32 E HE)).
  - now apply parsePTCommitment_ok.
  - apply parseYTCommitment_ok; [unfold u64; lia | exact HE].
Qed.

Lemma handleSplit_mints_pair_witness :
  (u64 50000 /\ u32 500000)
  /\ exists ptCommitment ytCommitment,
       YieldSplit.handleSplit [nft_utxo "rr" 1 "cat" "000000000000c350"] "owner"
         (Some "rr") (num 1) (num 500000)
       = Sent (YieldSplit.mkTx (YieldSplit.split (num 500000))
                 [nft_utxo "rr" 1 "cat" "000000000000c350"]
                 [YieldSplit.nft_output "owner" "cat" ptCommitment;
                  YieldSplit.nft_output "owner" "cat" ytCommitment])
       /\ YieldSplit.parsePTCommitment ptCommitment
          = Ok (YieldSplit.mkPT 50000 (num 500000))
       /\ YieldSplit.parseYTCommitment ytCommitment
          = Ok (YieldSplit.mkYT 0 (num 500000)).
Proof.
  assert (H64 : u64 50000) by (unfold u64; lia).
  assert (H32 : u32 500000) by (unfold u32; lia).
  split; [now split | ].
  apply (handleSplit_mints_pair [nft_utxo "rr" 1 "cat" "000000000000c350"]
           "owner" "rr" (num 1) (nft_utxo "rr" 1 "cat" "000000000000c350")
           50000 500000 H64 H32 ltac:(discriminate) eq_refl eq_refl).
Defined.

(** X4. Split and merge are inverse on the receipt: splitting a receipt
    of principal [P] with any expiry that fits 4 bytes and merging the PT
    and YT just minted sends a merge transaction whose single output is an
    immutable NFT with the category and the commitment of the original
    receipt. *)
Theorem split_then_merge_restores_receipt
    (userUtxos : list Utxo) (ownerAddress nftTxId txid : string) (nftVout : number)
    (nftUtxo : Utxo) (P E : Z) :
  u64 P -> u32 E -> nftTxId <> EmptyString -> txid <> EmptyString ->
  YieldSplit.find_nft userUtxos (Some nftTxId) nftVout = Some nftUtxo ->
  commitment_of nftUtxo = hex_field 8 P ->
  exists tx,
    split_then_merge userUtxos ownerAddress (Some nftTxId) nftVout (num E) txid
    = Sent tx
    /\ YieldSplit.tx_call tx = YieldSplit.merge
    /\ YieldSplit.tx_to tx
       = [YieldSplit.nft_output ownerAddress (category_of nftUtxo)
            (commitment_of nftUtxo)].
Proof.
  intros HP HE Hid Htx Hfound Hc.
  eexists. split; [ | split].
  - apply (split_then_merge_sends userUtxos ownerAddress nftTxId nftVout nftUtxo P
             HP Hid Hfound Hc (num E) E (writeUInt32BE_u32 E HE) txid Htx HE).
  - reflexivity.
  - reflexivity.
Qed.

Lemma split_then_merge_restores_receipt_witness :
  (u64 50000 /\ u32 500000)
  /\ exists tx,
       split_then_merge [nft_utxo "rr" 1 "cat" "000000000000c350"] "owner"
         (Some "rr") (num 1) (num 500000) "ss"
       = Sent tx
       /\ YieldSplit.tx_call tx = YieldSplit.merge
       /\ YieldSplit.tx_to tx
          = [YieldSplit.nft_output "owner" "cat" "000000000000c350"].
Proof.
  assert (H64 : u64 50000) by (unfold u64; lia).
  assert (H32 : u32 500000) by (unfold u32; lia).
  split; [now split | ].
  apply (split_then_merge_restores_receipt
           [nft_utxo "rr" 1 "cat" "000000000000c350"] "owner" "rr" "ss" (num 1)
           (nft_utxo "rr" 1 "cat" "000000000000c350") 50000 500000 H64 H32
           ltac:(discriminate) ltac:(discriminate) eq_refl eq_refl).
Defined.

(** X5. A PT minted by a split can be redeemed from its expiry on and
    not before: redeeming the PT of a split of principal [P] and expiry
    [E] exits as not yet matured at every time below [E] and, from [E]
    on, pays exactly [P] to the owner in a single output without token. *)
Theorem split_then_redeem_gating
    (userUtxos : list Utxo) (ownerAddress nftTxId txid : string) (nftVout : number)
    (nftUtxo : Utxo) (P E currentTime : Z) :
  u64 P -> u32 E -> nftTxId <> EmptyString -> txid <> EmptyString ->
  YieldSplit.find_nft userUtxos (Some nftTxId) nftVout = Some nftUtxo ->
  commitment_of nftUtxo = hex_field 8 P ->
  (currentTime < E ->
   split_then_redeem userUtxos ownerAddress (Some nftTxId) nftVout (num E) txid
     (num currentTime) = Exit NotYetMatured)
  /\ (E <= currentTime ->
      exists tx,
        split_then_redeem userUtxos ownerAddress (Some nftTxId) nftVout (num E) txid
          (num currentTime) = Sent tx
        /\ YieldSplit.tx_to tx = [mkOutput ownerAddress P None]).
Proof.
  intros HP HE Hid Htx Hfound Hc.
  pose proof (split_then_redeem_cases userUtxos ownerAddress nftTxId nftVout nftUtxo P
                HP Hid Hfound Hc (num E) E (writeUInt32BE_u32 E HE) txid Htx HE
                currentTime) as Hcases.
  split; intros Ht; rewrite Hcases.
  - destruct (Z.ltb_spec currentTime E); [reflexivity | lia].
  - destruct (Z.ltb_spec currentTime E); [lia | ]. eexists. split; reflexivity.
Qed.

Lemma split_then_redeem_gating_witness :
  (u64 50000 /\ u32 500000)
  /\ split_then_redeem [nft_utxo "rr" 1 "cat" "000000000000c350"] "owner"
       (Some "rr") (num 1) (num 500000) "ss" (num 499999)
     = Exit NotYetMatured
  /\ exists tx,
       split_then_redeem [nft_utxo "rr" 1 "cat" "000000000000c350"] "owner"
         (Some "rr") (num 1) (num 500000) "ss" (num 500000)
       = Sent tx
       /\ YieldSplit.tx_to tx = [mkOutput "owner" 50000 None].
Proof.
  assert (H64 : u64 50000) by (unfold u64; lia).
  assert (H32 : u32 500000) by (unfold u32; lia).
  split; [now split | ].
  split.
  - apply (split_then_redeem_gating
             [nft_utxo "rr" 1 "cat" "000000000000c350"] "owner" "rr" "ss" (num 1)
             (nft_utxo "rr" 1 "cat" "000000000000c350") 50000 500000 499999 H64 H32
             ltac:(discriminate) ltac:(discriminate) eq_refl eq_refl).
    lia.
  - apply (split_then_redeem_gating
             [nft_utxo "rr" 1 "cat" "000000000000c350"] "owner" "rr" "ss" (num 1)
             (nft_utxo "rr" 1 "cat" "000000000000c350") 50000 500000 500000 H64 H32
             ltac:(discriminate) ltac:(discriminate) eq_refl eq_refl).
    lia.
Defined.

(** X6. An expiry that does not parse is not rejected: with [EXPIRY]
    read as [NaN], [handleSplit] mints a PT whose expiry field is 0, so
    that redeeming it pays the principal at every current time from 0
    on. *)
Theorem split_with_nan_expiry_redeems_at_once
    (userUtxos : list Utxo) (ownerAddress nftTxId txid : string) (nftVout : number)
    (nftUtxo : Utxo) (P currentTime : Z) :
  u64 P -> nftTxId <> EmptyString -> txid <> EmptyString ->
  YieldSplit.find_nft userUtxos (Some nftTxId) nftVout = Some nftUtxo ->
  commitment_of nftUtxo = hex_field 8 P ->
  0 <= currentTime ->
  exists tx,
    split_then_redeem userUtxos ownerAddress (Some nftTxId) nftVout NaN txid
      (num currentTime) = Sent tx
    /\ YieldSplit.tx_to tx = [mkOutput ownerAddress P None].
Proof.
  intros HP Hid Htx Hfound Hc Ht.
  rewrite (split_then_redeem_cases userUtxos ownerAddress nftTxId nftVout nftUtxo P
             HP Hid Hfound Hc NaN 0 eq_refl txid Htx ltac:(unfold u32; lia)
             currentTime).
  destruct (Z.ltb_spec currentTime 0); [lia | ]. eexists. split; reflexivity.
Qed.

Lemma split_with_nan_expiry_redeems_at_once_witness :
  (u64 50000 /\ 0 <= 0)
  /\ exists tx,
       split_then_redeem [nft_utxo "rr" 1 "cat" "000000000000c350"] "owner"
         (Some "rr") (num 1) NaN "ss" (num 0)
       = Sent tx
       /\ YieldSplit.tx_to tx = [mkOutput "owner" 50000 None].
Proof.
  assert (H64 : u64 50000) by (unfold u64; lia).
  split; [split; [exact H64 | lia] | ].
  apply (split_with_nan_expiry_redeems_at_once
           [nft_utxo "rr" 1 "cat" "000000000000c350"] "owner" "rr" "ss" (num 1)
           (nft_utxo "rr" 1 "cat" "000000000000c350") 50000 0 H64
           ltac:(discriminate) ltac:(discriminate) eq_refl eq_refl).
  lia.
Defined.

(** ** What the yield-split handlers spend *)

Lemma find_nft_Some (userUtxos : list Utxo) (txid : string) (vout : number) (u : Utxo) :
  YieldSplit.find_nft userUtxos (Some txid) vout = Some u ->
  In u userUtxos /\ utxo_txid u = txid /\ has_capability cap_none u = true.
Proof.
  unfold YieldSplit.find_nft. intros H. apply find_some in H as [Hin Hp].
  apply andb_true_iff in Hp as [Hp Hcap]. apply andb_true_iff in Hp as [Hid _].
  cbn [env_eqb] in Hid. apply String.eqb_eq in Hid. auto.
Qed.

Lemma unset_false (v : option string) :
  unset v = false -> exists s, v = Some s.
Proof. destruct v as [s|]; [now exists s | discriminate]. Qed.

Lemma listed_nft (userUtxos : list Utxo) (txid : string) (vout : number) (u : Utxo)
    (txids : list string) :
  YieldSplit.find_nft userUtxos (Some txid) vout = Some u ->
  In txid txids ->
  exists u', In u' userUtxos /\ In (utxo_txid u') txids
             /\ has_capability cap_none u' = true
             /\ YieldSplit.nft_input u (commitment_of u)
                = YieldSplit.nft_input u' (commitment_of u').
Proof.
  intros Hfound Hin. apply find_nft_Some in Hfound as [Hu [Hid Hcap]].
  exists u. rewrite Hid. auto.
Qed.

(** X7. The yield-split handlers only ever spend what was asked for:
    every input of a transaction sent by [handleSplit], [handleMerge],
    [handleRedeemPT] or [handleClaimYield] is one of the owner's unspent
    outputs, sits at a transaction identifier given in the environment and
    carries an immutable NFT; an output with a minting or mutable NFT, or
    without a token, is never spent. *)
Theorem handlers_spend_listed_nfts
    (userUtxos : list Utxo) (ownerAddress : string) (txid1 txid2 : option string)
    (vout1 vout2 x y : number) (tx : YieldSplit.Transaction) (id1 id2 : string) :
  txid1 = Some id1 -> txid2 = Some id2 ->
  (YieldSplit.handleSplit userUtxos ownerAddress txid1 vout1 x = Sent tx
   -> spends_listed_nfts userUtxos [id1] (YieldSplit.tx_from tx))
  /\ (YieldSplit.handleMerge userUtxos ownerAddress txid1 vout1 txid2 vout2 = Sent tx
      -> spends_listed_nfts userUtxos [id1; id2] (YieldSplit.tx_from tx))
  /\ (YieldSplit.handleRedeemPT userUtxos ownerAddress txid1 vout1 x = Sent tx
      -> spends_listed_nfts userUtxos [id1] (YieldSplit.tx_from tx))
  /\ (YieldSplit.handleClaimYield userUtxos ownerAddress txid1 vout1 x y = Sent tx
      -> spends_listed_nfts userUtxos [id1] (YieldSplit.tx_from tx)).
Proof.
  intros -> ->. unfold spends_listed_nfts. repeat split.
  - unfold YieldSplit.handleSplit.
    destruct (unset (Some id1)); [discriminate | ].
    destruct (YieldSplit.find_nft userUtxos (Some id1) vout1) as [u|] eqn:Hu;
      [ | discriminate].
    destruct (BigInt_of_string ("0x" ++ commitment_of u)) as [p|]; [ | discriminate].
    cbn [bind].
    destruct (YieldSplit.buildPTCommitment p x) as [c1|]; [ | discriminate].
    destruct (YieldSplit.buildYTCommitment 0 x) as [c2|]; [ | discriminate].
    cbn [bind try]. intros H. apply (f_equal (fun o => match o with
                                                      | Sent t => YieldSplit.tx_from t
                                                      | _ => []
                                                      end)) in H.
    rewrite <- H. repeat constructor.
    apply (listed_nft userUtxos id1 vout1 u [id1] Hu). now left.
  - unfold YieldSplit.handleMerge.
    destruct (unset (Some id1) || unset (Some id2)); [discriminate | ].
    destruct (YieldSplit.find_nft userUtxos (Some id1) vout1) as [u1|] eqn:Hu1;
      [ | discriminate].
    destruct (YieldSplit.find_nft userUtxos (Some id2) vout2) as [u2|] eqn:Hu2;
      [ | discriminate].
    destruct (YieldSplit.parsePTCommitment (commitment_of u1)) as [pt|];
      [ | discriminate].
    destruct (YieldSplit.parseYTCommitment (commitment_of u2)) as [yt|];
      [ | discriminate].
    cbn [bind].
    destruct (writeBigUInt64BE (YieldSplit.principal pt)) as [b|]; [ | discriminate].
    cbn [bind try]. intros H. apply (f_equal (fun o => match o with
                                                      | Sent t => YieldSplit.tx_from t
                                                      | _ => []
                                                      end)) in H.
    rewrite <- H. repeat constructor.
    + apply (listed_nft userUtxos id1 vout1 u1 [id1; id2] Hu1). now left.
    + apply (listed_nft userUtxos id2 vout2 u2 [id1; id2] Hu2). right. now left.
  - unfold YieldSplit.handleRedeemPT.
    destruct (unset (Some id1)); [discriminate | ].
    destruct (YieldSplit.find_nft userUtxos (Some id1) vout1) as [u|] eqn:Hu;
      [ | discriminate].
    destruct (YieldSplit.parsePTCommitment (commitment_of u)) as [pt|];
      [ | discriminate].
    cbn [bind].
    destruct (num_lt x (YieldSplit.pt_expiry pt)); [discriminate | ].
    cbn [try]. intros H. apply (f_equal (fun o => match o with
                                                  | Sent t => YieldSplit.tx_from t
                                                  | _ => []
                                                  end)) in H.
    rewrite <- H. repeat constructor.
    apply (listed_nft userUtxos id1 vout1 u [id1] Hu). now left.
  - unfold YieldSplit.handleClaimYield.
    destruct (unset (Some id1)); [discriminate | ].
    destruct (YieldSplit.find_nft userUtxos (Some id1) vout1) as [u|] eqn:Hu;
      [ | discriminate].
    destruct (YieldSplit.parseYTCommitment (commitment_of u)) as [yt|];
      [ | discriminate].
    cbn [bind].
    destruct (num_ge x (YieldSplit.yt_expiry yt)).
    + cbn [try]. intros H. apply (f_equal (fun o => match o with
                                                    | Sent t => YieldSplit.tx_from t
                                                    | _ => []
                                                    end)) in H.
      rewrite <- H. repeat constructor.
      apply (listed_nft userUtxos id1 vout1 u [id1] Hu). now left.
    + destruct (BigInt_of_number (num_div (num_mul x y) (num 10000))) as [a|];
        [ | discriminate].
      cbn [bind].
      destruct (YieldSplit.buildYTCommitment (YieldSplit.yieldAccrued yt + a)
                  (YieldSplit.yt_expiry yt)) as [c|]; [ | discriminate].
      cbn [bind try]. intros H. apply (f_equal (fun o => match o with
                                                        | Sent t => YieldSplit.tx_from t
                                                        | _ => []
                                                        end)) in H.
      rewrite <- H. repeat constructor.
      apply (listed_nft userUtxos id1 vout1 u [id1] Hu). now left.
Qed.

Lemma handlers_spend_listed_nfts_witness :
  YieldSplit.handleRedeemPT [nft_utxo "aa" 0 "cat" "000000000000c3500007a120"]
    "owner" (Some "aa") (num 0) (num 500000)
  = Sent (YieldSplit.mkTx (YieldSplit.redeemPT (num 500000))
            [nft_utxo "aa" 0 "cat" "000000000000c3500007a120"]
            [mkOutput "owner" 50000 None])
  /\ spends_listed_nfts [nft_utxo "aa" 0 "cat" "000000000000c3500007a120"] ["aa"]
       [nft_utxo "aa" 0 "cat" "000000000000c3500007a120"].
Proof.
  split; [reflexivity | ].
  destruct (handlers_spend_listed_nfts
              [nft_utxo "aa" 0 "cat" "000000000000c3500007a120"] "owner"
              (Some "aa") (Some "aa") (num 0) (num 0) (num 500000) (num 0)
              (YieldSplit.mkTx (YieldSplit.redeemPT (num 500000))
                 [nft_utxo "aa" 0 "cat" "000000000000c3500007a120"]
                 [mkOutput "owner" 50000 None])
              "aa" "aa" eq_refl eq_refl) as [_ [_ [Hredeem _]]].
  apply Hredeem. reflexivity.
Defined.

(** ** Merging, and commitments that are not what a handler expects *)

(** X8. Merging forfeits the accrued yield: for a PT of principal [P] and
    a YT with any accrued yield [Y], whatever their expiries, the single
    output of the merge transaction is a receipt whose commitment is the
    8-byte big-endian [P], which the unstake and split scripts read back
    as [P]; [Y] appears in no output. *)
Theorem handleMerge_forfeits_yield
    (userUtxos : list Utxo) (ownerAddress ptTxId ytTxId : string)
    (ptVout ytVout : number) (ptUtxo ytUtxo : Utxo) (P Y Ept Eyt : Z) :
  u64 P -> u64 Y -> u32 Ept -> u32 Eyt ->
  ptTxId <> EmptyString -> ytTxId <> EmptyString ->
  YieldSplit.find_nft userUtxos (Some ptTxId) ptVout = Some ptUtxo ->
  YieldSplit.find_nft userUtxos (Some ytTxId) ytVout = Some ytUtxo ->
  YieldSplit.buildPTCommitment P (num Ept) = Ok (commitment_of ptUtxo) ->
  YieldSplit.buildYTCommitment Y (num Eyt) = Ok (commitment_of ytUtxo) ->
  exists tx receipt,
    YieldSplit.handleMerge userUtxos ownerAddress (Some ptTxId) ptVout
      (Some ytTxId) ytVout = Sent tx
    /\ YieldSplit.tx_to tx
       = [YieldSplit.nft_output ownerAddress (category_of ptUtxo) receipt]
    /\ (bs <- writeBigUInt64BE P ;; Ok (toString_hex bs)) = Ok receipt
    /\ BigInt_of_string ("0x" ++ receipt) = Ok P.
Proof.
  intros HP HY HEpt HEyt Hpid Hyid Hpt Hyt Hcp Hcy.
  eexists. exists (hex_field 8 P). split; [ | split; [ | split]].
  - apply (handleMerge_sends userUtxos ownerAddress ptTxId ytTxId ptVout ytVout
             ptUtxo ytUtxo P Y Ept Eyt); assumption.
  - reflexivity.
  - now rewrite (writeBigUInt64BE_u64 P HP).
  - now apply BigInt_of_hex_field_u64.
Qed.

Lemma handleMerge_forfeits_yield_witness :
  (u64 50000 /\ u64 1000 /\ u32 500000)
  /\ exists tx receipt,
       YieldSplit.handleMerge
         [nft_utxo "aa" 0 "cat" "000000000000c3500007a120";
          nft_utxo "bb" 1 "cat" "00000000000003e80007a120"]
         "owner" (Some "aa") (num 0) (Some "bb") (num 1) = Sent tx
       /\ YieldSplit.tx_to tx = [YieldSplit.nft_output "owner" "cat" receipt]
       /\ (bs <- writeBigUInt64BE 50000 ;; Ok (toString_hex bs)) = Ok receipt
       /\ BigInt_of_string ("0x" ++ receipt) = Ok 50000.
Proof.
  assert (HP : u64 50000) by (unfold u64; lia).
  assert (HY : u64 1000) by (unfold u64; lia).
  assert (HE : u32 500000) by (unfold u32; lia).
  split; [repeat split; try apply HP; try apply HY; apply HE | ].
  apply (handleMerge_forfeits_yield
           [nft_utxo "aa" 0 "cat" "000000000000c3500007a120";
            nft_utxo "bb" 1 "cat" "00000000000003e80007a120"]
           "owner" "aa" "bb" (num 0) (num 1)
           (nft_utxo "aa" 0 "cat" "000000000000c3500007a120")
           (nft_utxo "bb" 1 "cat" "00000000000003e80007a120")
           50000 1000 500000 500000 HP HY HE HE
           ltac:(discriminate) ltac:(discriminate) eq_refl eq_refl eq_refl eq_refl).
Defined.

(** X9. An immutable NFT with an empty commitment is found like any other
    and then rejected by the parse: [BigInt('0x')] throws, so
    [handleSplit], [handleRedeemPT], [handleClaimYield], [handleMerge]
    (for such a PT) and the [main] of unstake.ts end in the [catch] with
    a [SyntaxError] and send nothing. *)
Theorem empty_commitment_is_a_SyntaxError
    (userUtxos contractUtxos : list Utxo) (ownerAddress tokenAddress txid : string)
    (vout x y : number) (u : Utxo) (ytTxId : option string) (ytVout : number)
    (ownerWif : option string) :
  txid <> EmptyString ->
  commitment_of u = EmptyString ->
  (YieldSplit.find_nft userUtxos (Some txid) vout = Some u ->
   YieldSplit.handleSplit userUtxos ownerAddress (Some txid) vout x = Caught SyntaxError
   /\ YieldSplit.handleRedeemPT userUtxos ownerAddress (Some txid) vout x
      = Caught SyntaxError
   /\ YieldSplit.handleClaimYield userUtxos ownerAddress (Some txid) vout x y
      = Caught SyntaxError
   /\ forall ytUtxo,
        unset ytTxId = false ->
        YieldSplit.find_nft userUtxos ytTxId ytVout = Some ytUtxo ->
        YieldSplit.handleMerge userUtxos ownerAddress (Some txid) vout ytTxId ytVout
        = Caught SyntaxError)
  /\ (forall mintingUtxo,
        unset ownerWif = false ->
        LiquidStake.find_minting contractUtxos = Some mintingUtxo ->
        find (fun v => env_eqb (utxo_txid v) (Some txid)
                       && num_eq (num (utxo_vout v)) vout
                       && String.eqb (category_of v) (category_of mintingUtxo)
                       && has_capability cap_none v) userUtxos = Some u ->
        Unstake.main ownerWif (Some txid) vout contractUtxos userUtxos
          tokenAddress ownerAddress = Caught SyntaxError).
Proof.
  intros Hid Hc. split.
  - intros Hfound. repeat split.
    + unfold YieldSplit.handleSplit.
      now rewrite (unset_Some _ Hid), Hfound, Hc.
    + unfold YieldSplit.handleRedeemPT.
      now rewrite (unset_Some _ Hid), Hfound, Hc.
    + unfold YieldSplit.handleClaimYield.
      now rewrite (unset_Some _ Hid), Hfound, Hc.
    + intros ytUtxo Hyid Hyt. unfold YieldSplit.handleMerge.
      now rewrite (unset_Some _ Hid), Hyid, Hfound, Hyt, Hc.
  - intros mintingUtxo Hwif Hmint Hfound. unfold Unstake.main.
    now rewrite Hwif, (unset_Some _ Hid), Hmint, Hfound, Hc.
Qed.

Lemma empty_commitment_is_a_SyntaxError_witness :
  commitment_of (nft_utxo "aa" 0 "cat" "") = EmptyString
  /\ YieldSplit.handleRedeemPT [nft_utxo "aa" 0 "cat" ""] "owner" (Some "aa")
       (num 0) (num 500000) = Caught SyntaxError.
Proof.
  split; [reflexivity | ].
  destruct (empty_commitment_is_a_SyntaxError
              [nft_utxo "aa" 0 "cat" ""] [] "owner" "token" "aa"
              (num 0) (num 500000) (num 500) (nft_utxo "aa" 0 "cat" "")
              None NaN None ltac:(discriminate) eq_refl) as [Hsplit _].
  destruct (Hsplit eq_refl) as [_ [Hredeem _]]. exact Hredeem.
Defined.

Lemma substring_beyond (s : string) (m : nat) :
  substring (String.length s) m s = EmptyString.
Proof.
  induction s as [|c s IH]; [now destruct m | exact IH].
Qed.

(** X10. The maturity check needs an expiry field to stop anything.  An
    immutable NFT whose commitment is only the 8-byte principal [P], such
    as a staking receipt written by a merge, parses as a PT with expiry
    [NaN], against which [currentTime < expiry] is false: [handleRedeemPT]
    sends the redeem transaction paying [P] at every current time. *)
Theorem handleRedeemPT_without_expiry_field
    (userUtxos : list Utxo) (ownerAddress ptTxId : string)
    (ptVout currentTime : number) (ptUtxo : Utxo) (P : Z) :
  u64 P -> ptTxId <> EmptyString ->
  YieldSplit.find_nft userUtxos (Some ptTxId) ptVout = Some ptUtxo ->
  (bs <- writeBigUInt64BE P ;; Ok (toString_hex bs)) = Ok (commitment_of ptUtxo) ->
  YieldSplit.parsePTCommitment (commitment_of ptUtxo) = Ok (YieldSplit.mkPT P NaN)
  /\ YieldSplit.handleRedeemPT userUtxos ownerAddress (Some ptTxId) ptVout currentTime
     = Sent (YieldSplit.mkTx (YieldSplit.redeemPT currentTime)
               [YieldSplit.nft_input ptUtxo (commitment_of ptUtxo)]
               [mkOutput ownerAddress P None]).
Proof.
  intros HP Hid Hfound Hc.
  rewrite (writeBigUInt64BE_u64 P HP) in Hc. cbn [bind] in Hc.
  apply Ok_inj in Hc. fold (hex_field 8 P) in Hc.
  assert (Hparse : YieldSplit.parsePTCommitment (commitment_of ptUtxo)
                   = Ok (YieldSplit.mkPT P NaN)).
  { rewrite <- Hc. unfold YieldSplit.parsePTCommitment, slice.
    change (16 - 0)%nat with (2 * 8)%nat. change (24 - 16)%nat with 8%nat.
    change 16%nat with (2 * 8)%nat.
    rewrite <- (length_hex_field 8 P), substring_whole, substring_beyond.
    now rewrite (BigInt_of_hex_field_u64 P HP). }
  split; [exact Hparse | ].
  unfold YieldSplit.handleRedeemPT.
  rewrite (unset_Some _ Hid), Hfound, Hparse.
  cbn [bind YieldSplit.pt_expiry YieldSplit.principal].
  now destruct currentTime.
Qed.

Lemma handleRedeemPT_without_expiry_field_witness :
  u64 50000
  /\ YieldSplit.handleRedeemPT [nft_utxo "rr" 0 "cat" "000000000000c350"] "owner"
       (Some "rr") (num 0) (num 0)
     = Sent (YieldSplit.mkTx (YieldSplit.redeemPT (num 0))
               [nft_utxo "rr" 0 "cat" "000000000000c350"]
               [mkOutput "owner" 50000 None]).
Proof.
  assert (HP : u64 50000) by (unfold u64; lia).
  split; [exact HP | ].
  apply (handleRedeemPT_without_expiry_field
           [nft_utxo "rr" 0 "cat" "000000000000c350"] "owner" "rr" (num 0) (num 0)
           (nft_utxo "rr" 0 "cat" "000000000000c350") 50000 HP
           ltac:(discriminate) eq_refl eq_refl).
Defined.

(** ** The DEX facet: liquidity, quotes and the cases of [main] *)

Lemma calculateLiquidity_min (amount0 amount1 : Z) :
  Dex.calculateLiquidity amount0 amount1 = Z.min amount0 amount1.
Proof.
  unfold Dex.calculateLiquidity. destruct (Z.ltb_spec amount0 amount1); lia.
Qed.

Lemma buildPositionCommitment_cases (lower upper amount : Z) :
  Dex.buildPositionCommitment (num lower) (num upper) amount
  = if u32b lower && u32b upper && u64b amount
    then Ok (hex_field 4 lower ++ hex_field 4 upper ++ hex_field 8 amount)
    else Throw RangeError.
Proof.
  unfold Dex.buildPositionCommitment.
  rewrite !writeUInt32BE_cases, writeBigUInt64BE_cases.
  now destruct (u32b lower), (u32b upper), (u64b amount).
Qed.

(** X11. The liquidity of a position is the smaller of the two amounts
    (not a geometric mean): it is symmetric in the amounts and never
    exceeds either of them. *)
Theorem calculateLiquidity_is_min (amount0 amount1 : Z) :
  Dex.calculateLiquidity amount0 amount1 = Z.min amount0 amount1
  /\ Dex.calculateLiquidity amount0 amount1 = Dex.calculateLiquidity amount1 amount0
  /\ Dex.calculateLiquidity amount0 amount1 <= amount0
  /\ Dex.calculateLiquidity amount0 amount1 <= amount1.
Proof.
  unfold Dex.calculateLiquidity.
  destruct (Z.ltb_spec amount0 amount1), (Z.ltb_spec amount1 amount0); lia.
Qed.

Lemma swap_quote_nonneg (amountIn feeBps : Z) (zeroForOne : bool) :
  0 <= amountIn -> 0 <= feeBps ->
  Dex.calculateSwapOutput amountIn zeroForOne (Some (num feeBps))
  = Ok (amountIn - amountIn * feeBps / 10000).
Proof.
  intros Ha Hf. unfold Dex.calculateSwapOutput.
  rewrite !BigInt_of_number_num. cbn [bind].
  rewrite Z.quot_div_nonneg by (try apply Z.mul_nonneg_nonneg; lia).
  reflexivity.
Qed.

(** X12. For a non-negative amount and a fee between 0 and 10000 basis
    points the quote lies between 0 and the amount paid in, and a larger
    amount in never gives a smaller quote. *)
Theorem calculateSwapOutput_bounds (amountIn amountIn' feeBps : Z) (zeroForOne : bool) :
  0 <= amountIn <= amountIn' -> 0 <= feeBps <= 10000 ->
  exists out out',
    Dex.calculateSwapOutput amountIn zeroForOne (Some (num feeBps)) = Ok out
    /\ Dex.calculateSwapOutput amountIn' zeroForOne (Some (num feeBps)) = Ok out'
    /\ 0 <= out <= amountIn
    /\ out <= out'.
Proof.
  intros [Ha Hle] [Hf Hcap].
  exists (amountIn - amountIn * feeBps / 10000),
         (amountIn' - amountIn' * feeBps / 10000).
  rewrite !swap_quote_nonneg by lia.
  assert (H0 : 0 <= amountIn * feeBps / 10000)
    by (apply Z.div_pos; [apply Z.mul_nonneg_nonneg | ]; lia).
  assert (H1 : amountIn * feeBps / 10000 <= amountIn).
  { rewrite <- (Z.div_mul amountIn 10000) at 2 by lia.
    apply Z.div_le_mono; [lia | ]. apply Z.mul_le_mono_nonneg_l; lia. }
  assert (H2 : amountIn' * feeBps / 10000
               <= amountIn * feeBps / 10000 + (amountIn' - amountIn)).
  { rewrite <- Z.div_add by lia. apply Z.div_le_mono; [lia | ]. nia. }
  repeat split; lia.
Qed.

Lemma calculateSwapOutput_bounds_witness :
  (0 <= 10000 <= 20000 /\ 0 <= 30 <= 10000)
  /\ exists out out',
       Dex.calculateSwapOutput 10000 true (Some (num 30)) = Ok out
       /\ Dex.calculateSwapOutput 20000 true (Some (num 30)) = Ok out'
       /\ 0 <= out <= 10000
       /\ out <= out'.
Proof.
  split; [lia | ].
  apply (calculateSwapOutput_bounds 10000 20000 30 true); lia.
Defined.

(** X13. The [swap] case never rejects a trade: whatever [MIN_AMOUNT_OUT]
    is, also above the quote, the transaction is sent; its token output
    goes to the owner in [token1] when [zeroForOne] and in [token0]
    otherwise, and its amount is the quote at the default 30 basis
    points, which does not depend on [MIN_AMOUNT_OUT]. *)
Theorem main_swap_never_checks_slippage
    (contractAddress ownerAddress : string) (zeroForOne : bool)
    (amountIn minAmountOut : Z) :
  Dex.main_swap contractAddress ownerAddress zeroForOne amountIn minAmountOut
  = Sent (Dex.mkTx (Dex.swap zeroForOne amountIn minAmountOut)
            [Dex.covenant_output contractAddress 1000;
             Dex.token_output ownerAddress
               (if zeroForOne then "token1" else "token0")
               (amountIn - Z.quot (amountIn * 30) 10000)]
            ownerAddress)
  /\ Dex.main_swap contractAddress ownerAddress zeroForOne 10000 9971
     = Sent (Dex.mkTx (Dex.swap zeroForOne 10000 9971)
               [Dex.covenant_output contractAddress 1000;
                Dex.token_output ownerAddress
                  (if zeroForOne then "token1" else "token0") 9970]
               ownerAddress).
Proof. split; reflexivity. Qed.

(** X14. The [add] case succeeds exactly when the commitment can be
    built.  With ticks that fit 4 unsigned bytes and a smaller amount that
    fits 8, it sends [addLiquidity] with a position NFT for the owner
    whose commitment parses back to the two ticks and the smaller of the
    two amounts; with a tick or a smaller amount out of range (a negative
    tick, a negative amount) it ends in the [catch] with a [RangeError]
    and sends nothing. *)
Theorem main_add_cases
    (contractAddress ownerAddress : string) (amount0 amount1 lower upper : Z) :
  (u32 lower -> u32 upper -> u64 (Z.min amount0 amount1) ->
   exists commitment,
     Dex.main_add contractAddress ownerAddress amount0 amount1 (num lower) (num upper)
     = Sent (Dex.mkTx (Dex.addLiquidity amount0 amount1 (num lower) (num upper))
               [Dex.covenant_output contractAddress 1000;
                Dex.nft_output ownerAddress "position" commitment]
               ownerAddress)
     /\ Dex.parsePositionCommitment commitment
        = Ok (Dex.mkPosition (num lower) (num upper) (Z.min amount0 amount1)))
  /\ (~ (u32 lower /\ u32 upper /\ u64 (Z.min amount0 amount1)) ->
      Dex.main_add contractAddress ownerAddress amount0 amount1 (num lower) (num upper)
      = Caught RangeError).
Proof.
  pose proof (calculateLiquidity_min amount0 amount1) as Hmin.
  split.
  - intros Hl Hu HL.
    exists (hex_field 4 lower ++ hex_field 4 upper
            ++ hex_field 8 (Z.min amount0 amount1)).
    split; [ | now apply parsePositionCommitment_ok].
    rewrite <- Hmin. apply main_add_sends; rewrite ?Hmin; assumption.
  - intros Hbad. unfold Dex.main_add. rewrite Hmin.
    rewrite buildPositionCommitment_cases.
    destruct (u32b lower) eqn:Hl; [ | reflexivity].
    destruct (u32b upper) eqn:Hu; [ | reflexivity].
    destruct (u64b (Z.min amount0 amount1)) eqn:HL; [ | reflexivity].
    exfalso. apply Hbad.
    now rewrite <- !u32b_true, <- u64b_true.
Qed.

Lemma main_add_cases_witness :
  (u32 0 /\ u32 100 /\ u64 (Z.min 100000 200000))
  /\ (exists commitment,
        Dex.main_add "contract" "owner" 100000 200000 (num 0) (num 100)
        = Sent (Dex.mkTx (Dex.addLiquidity 100000 200000 (num 0) (num 100))
                  [Dex.covenant_output "contract" 1000;
                   Dex.nft_output "owner" "position" commitment]
                  "owner")
        /\ Dex.parsePositionCommitment commitment
           = Ok (Dex.mkPosition (num 0) (num 100) (Z.min 100000 200000)))
  /\ Dex.main_add "contract" "owner" 100000 200000 (num (-1)) (num 100)
     = Caught RangeError.
Proof.
  assert (H0 : u32 0) by (unfold u32; lia).
  assert (H100 : u32 100) by (unfold u32; lia).
  assert (HL : u64 (Z.min 100000 200000)) by (unfold u64; cbn; lia).
  split; [repeat split; try apply H0; try apply H100; apply HL | ].
  split.
  - apply (main_add_cases "contract" "owner" 100000 200000 0 100); assumption.
  - apply (main_add_cases "contract" "owner" 100000 200000 (-1) 100).
    unfold u32. lia.
Defined.




(** X16. Without a position nothing is sent: when none of the owner's
    unspent outputs carries an immutable NFT with a commitment of 32
    characters, [remove] and [collect] exit, whether or not
    [POSITION_TXID] is set; a 24-character PT or YT commitment is not
    taken for a position. *)
Theorem position_cases_exit_without_position
    (contractAddress ownerAddress : string) (positionTxid : option string)
    (positionVout : number) (amount0 amount1 : Z) (userUtxos : list Utxo) :
  Forall (fun u => has_capability cap_none u = false
                   \/ String.length (commitment_of u) <> 32%nat) userUtxos ->
  (exists why,
     DexPosition.main_remove contractAddress ownerAddress positionTxid
       positionVout amount0 amount1 userUtxos = Exit why)
  /\ (exists why,
        DexPosition.main_collect contractAddress ownerAddress positionTxid
          positionVout amount0 amount1 userUtxos = Exit why).
Proof.
  intros Hnone.
  assert (Hfind : DexPosition.find_position userUtxos = None).
  { unfold DexPosition.find_position.
    induction Hnone as [|u us Hu _ IH]; [reflexivity | ].
    cbn [find]. rewrite IH.
    destruct Hu as [-> | Hlen]; [reflexivity | ].
    apply Nat.eqb_neq in Hlen. rewrite Hlen. now rewrite andb_false_r. }
  unfold DexPosition.main_remove, DexPosition.main_collect. rewrite Hfind.
  destruct (unset positionTxid); split; eexists; reflexivity.
Qed.

Lemma position_cases_exit_without_position_witness :
  exists why,
    DexPosition.main_remove "contract" "owner" (Some "aa") (num 0) 5 6
      [nft_utxo "aa" 0 "cat" "000000000000c3500007a120"] = Exit why.
Proof.
  apply (position_cases_exit_without_position "contract" "owner" (Some "aa")
           (num 0) 5 6 [nft_utxo "aa" 0 "cat" "000000000000c3500007a120"]).
  constructor; [right; cbn; discriminate | constructor].
Defined.

(** ** Staking and unstaking *)

Lemma Sent_inj {T : Type} (a b : T) : Sent a = Sent b -> a = b.
Proof. intros H. now injection H. Qed.

Lemma BigInt_of_sum (a b : Z) :
  BigInt_of_number (num_add (Number_of_bigint a) (Number_of_bigint b)) = Ok (a + b).
Proof.
  unfold BigInt_of_number, num_add, Number_of_bigint, num.
  cbn [Qplus inject_Z Qnum Qden]. change (Z.pos (1 * 1)) with 1.
  rewrite Z.mod_1_r, Z.div_1_r. cbn [Z.eqb]. f_equal. lia.
Qed.

Lemma BigInt_of_difference (a b : Z) :
  BigInt_of_number (num_sub (Number_of_bigint a) (Number_of_bigint b)) = Ok (a - b).
Proof.
  unfold BigInt_of_number, num_sub, Number_of_bigint, num.
  cbn [Qminus Qplus Qopp inject_Z Qnum Qden]. change (Z.pos (1 * 1)) with 1.
  rewrite Z.mod_1_r, Z.div_1_r. cbn [Z.eqb]. f_equal. lia.
Qed.

Lemma num_ge_sum (a s k : Z) :
  num_ge (Number_of_bigint a) (num_add (Number_of_bigint s) (num k)) = (s + k <=? a).
Proof.
  unfold num_ge, num_add, Number_of_bigint, num, Qltb.
  cbn [Qplus inject_Z Qnum Qden]. change (Z.pos (1 * 1)) with 1.
  destruct (Z.ltb_spec (a * 1) ((s * 1 + k * 1) * 1)), (Z.leb_spec (s + k) a);
    cbn [negb]; auto; lia.
Qed.

(** X17. stake.ts sends nothing it cannot fund.  Whenever [main] sends a
    stake transaction, the amount fits 8 unsigned bytes, the single input
    is one of the owner's unspent outputs holding at least the amount
    plus 2000 satoshis, and the two outputs are the reserve (the minting
    NFT found at the contract, now holding the old reserve plus the
    amount) and a 1000-satoshi immutable receipt of the same category for
    the owner whose 8-byte commitment is the amount, least significant
    byte first.  (Satoshi values below [2^52], where the script's
    [Number] arithmetic is exact.) *)
Theorem stake_sent_is_funded
    (ownerWif : option string) (stakeAmount : Z)
    (contractUtxos userUtxos : list Utxo) (tokenAddress ownerAddress : string)
    (tx : LiquidStake.Transaction) :
  Forall (fun u => 0 <= utxo_satoshis u < 2 ^ 52) (contractUtxos ++ userUtxos)%list ->
  Stake.main ownerWif stakeAmount contractUtxos userUtxos tokenAddress ownerAddress
  = Sent tx ->
  exists mintingUtxo fundingUtxo,
    LiquidStake.find_minting contractUtxos = Some mintingUtxo
    /\ In fundingUtxo userUtxos
    /\ stakeAmount + 2000 <= utxo_satoshis fundingUtxo
    /\ u64 stakeAmount
    /\ LiquidStake.tx_from tx
       = [mkUtxo (utxo_txid fundingUtxo) (utxo_vout fundingUtxo)
            (utxo_satoshis fundingUtxo) None]
    /\ LiquidStake.tx_to tx
       = [LiquidStake.reserve_output tokenAddress
            (utxo_satoshis mintingUtxo + stakeAmount) mintingUtxo;
          mkOutput ownerAddress 1000
            (Some (mkToken (category_of mintingUtxo) 0
                     (Some (mkNft cap_none (toString_hex (le_bytes 8 stakeAmount))))))].
Proof.
  intros _. unfold Stake.main.
  destruct (unset ownerWif); [discriminate | ].
  destruct (LiquidStake.find_minting contractUtxos) as [m|]; [ | discriminate].
  destruct userUtxos as [|u0 us] eqn:Hus; [discriminate | ]. rewrite <- Hus.
  destruct (find _ userUtxos) as [f|] eqn:Hf; [ | discriminate].
  apply find_some in Hf as [Hin Hge]. rewrite num_ge_sum in Hge.
  apply Z.leb_le in Hge.
  unfold writeBigUInt64LE.
  destruct (Z.ltb_spec stakeAmount 0); [discriminate | ].
  destruct (Z.ltb_spec (2 ^ 64 - 1) stakeAmount); [discriminate | ].
  cbn [orb bind]. rewrite BigInt_of_sum. cbn [bind try].
  intros Hsent. apply Sent_inj in Hsent. subst tx.
  exists m, f. repeat split; auto; lia.
Qed.

Lemma stake_sent_is_funded_witness :
  Forall (fun u => 0 <= utxo_satoshis u < 2 ^ 52) ([reserve_utxo] ++ [wallet_utxo])%list
  /\ exists mintingUtxo fundingUtxo,
       LiquidStake.find_minting [reserve_utxo] = Some mintingUtxo
       /\ In fundingUtxo [wallet_utxo]
       /\ 50000 + 2000 <= utxo_satoshis fundingUtxo
       /\ u64 50000.
Proof.
  assert (Hsat : Forall (fun u => 0 <= utxo_satoshis u < 2 ^ 52)
                   ([reserve_utxo] ++ [wallet_utxo])%list)
    by (repeat constructor; cbn; lia).
  split; [exact Hsat | ].
  destruct (stake_sent_is_funded (Some "wif") 50000 [reserve_utxo] [wallet_utxo]
              "token" "owner" _ Hsat eq_refl)
    as [m [f [Hm [Hin [Hge [Hfit _]]]]]].
  exists m, f. auto.
Defined.

(** X18. stake.ts refuses an amount it cannot pay for or encode: with no
    unspent output of at least the amount plus 2000 satoshis it exits
    before building anything, and with an amount that is negative or does
    not fit 8 unsigned bytes it never sends a transaction.  (Satoshi
    values below [2^52].) *)
Theorem stake_refuses_unfunded_or_unencodable
    (ownerWif : option string) (stakeAmount : Z)
    (contractUtxos userUtxos : list Utxo) (tokenAddress ownerAddress : string)
    (mintingUtxo : Utxo) :
  Forall (fun u => 0 <= utxo_satoshis u < 2 ^ 52) userUtxos ->
  unset ownerWif = false ->
  LiquidStake.find_minting contractUtxos = Some mintingUtxo ->
  userUtxos <> [] ->
  (Forall (fun u => utxo_satoshis u < stakeAmount + 2000) userUtxos ->
   Stake.main ownerWif stakeAmount contractUtxos userUtxos tokenAddress ownerAddress
   = Exit NoFundingUtxo)
  /\ (~ u64 stakeAmount ->
      Stake.main ownerWif stakeAmount contractUtxos userUtxos tokenAddress ownerAddress
      = Exit NoFundingUtxo
      \/ Stake.main ownerWif stakeAmount contractUtxos userUtxos tokenAddress ownerAddress
         = Caught RangeError).
Proof.
  intros _ Hwif Hmint Hne. unfold Stake.main. rewrite Hwif, Hmint.
  destruct userUtxos as [|u0 us] eqn:Hus; [contradiction | ]. rewrite <- Hus.
  split.
  - intros Hpoor.
    assert (Hnone : find (fun u => num_ge (Number_of_bigint (utxo_satoshis u))
                                     (num_add (Number_of_bigint stakeAmount) (num 2000)))
                      userUtxos = None).
    { clear Hus. induction Hpoor as [|u l Hu _ IH]; [reflexivity | ].
      cbn [find]. rewrite num_ge_sum.
      destruct (Z.leb_spec (stakeAmount + 2000) (utxo_satoshis u)); [lia | exact IH]. }
    now rewrite Hnone.
  - intros Hbad. destruct (find _ userUtxos); [right | now left].
    unfold writeBigUInt64LE, u64 in *.
    destruct (Z.ltb_spec stakeAmount 0); [reflexivity | ].
    destruct (Z.ltb_spec (2 ^ 64 - 1) stakeAmount); [reflexivity | lia].
Qed.

Lemma stake_refuses_unfunded_or_unencodable_witness :
  Forall (fun u => utxo_satoshis u < 59000 + 2000) [wallet_utxo]
  /\ Stake.main (Some "wif") 59000 [reserve_utxo] [wallet_utxo] "token" "owner"
     = Exit NoFundingUtxo.
Proof.
  assert (Hpoor : Forall (fun u => utxo_satoshis u < 59000 + 2000) [wallet_utxo])
    by (repeat constructor; cbn; lia).
  split; [exact Hpoor | ].
  destruct (stake_refuses_unfunded_or_unencodable (Some "wif") 59000
              [reserve_utxo] [wallet_utxo] "token" "owner" reserve_utxo
              ltac:(repeat constructor; cbn; lia)
              eq_refl eq_refl ltac:(discriminate)) as [Hexit _].
  apply Hexit. exact Hpoor.
Defined.

Lemma digit_value_nonneg (c : ascii) (d : Z) : digit_value c = Some d -> 0 <= d.
Proof.
  unfold digit_value.
  destruct (Z.leb_spec 48 (code c)), (Z.leb_spec (code c) 57),
    (Z.leb_spec 97 (code c)), (Z.leb_spec (code c) 122),
    (Z.leb_spec 65 (code c)), (Z.leb_spec (code c) 90);
    cbn [andb]; intros Hd; try discriminate;
    apply (f_equal (fun o => match o with Some x => x | None => 0 end)) in Hd;
    lia.
Qed.

Lemma take_digits_nonneg (radix : Z) (s : string) :
  Forall (fun d => 0 <= d) (fst (take_digits radix s)).
Proof.
  induction s as [|c s IH]; [constructor | ].
  cbn [take_digits]. unfold radix_digit.
  destruct (digit_value c) as [d|] eqn:Hd; [ | constructor].
  destruct (d <? radix); [ | constructor].
  destruct (take_digits radix s) as [ds rest]. cbn [fst] in *.
  constructor; [exact (digit_value_nonneg c d Hd) | exact IH].
Qed.

Lemma fold_digits_nonneg (radix : Z) (ds : list Z) :
  0 <= radix -> Forall (fun d => 0 <= d) ds ->
  forall acc, 0 <= acc -> 0 <= fold_left (fun a d => a * radix + d) ds acc.
Proof.
  intros Hr. induction 1 as [|d ds Hd _ IH]; intros acc Hacc; [exact Hacc | ].
  cbn [fold_left]. apply IH. nia.
Qed.

Lemma all_digits_nonneg (radix : Z) (s : string) (v : Z) :
  0 <= radix -> all_digits radix s = Ok v -> 0 <= v.
Proof.
  intros Hr. unfold all_digits.
  pose proof (take_digits_nonneg radix s) as Hds.
  destruct (take_digits radix s) as [[|d ds] [|c rest]]; try discriminate.
  intros H. apply Ok_inj in H. subst v.
  apply fold_digits_nonneg; [exact Hr | exact Hds | lia].
Qed.

(** [BigInt('0x' + c)] never yields a negative amount. *)
Lemma BigInt_of_0x_nonneg (c : string) (v : Z) :
  BigInt_of_string ("0x" ++ c) = Ok v -> 0 <= v.
Proof.
  unfold BigInt_of_string, trim.
  cbn [append trim_left]. change (is_white_space "0") with false. cbv iota.
  cbn [trim_right]. change (is_white_space "x") with false.
  change (is_white_space "0") with false.
  destruct (trim_right c) as [|c' r]; cbn [radix_prefix];
    change (("x" =? "x")%char || ("x" =? "X")%char) with true; cbv iota;
    apply all_digits_nonneg; lia.
Qed.

(** X19. unstake.ts never overdraws the reserve and never creates value:
    whenever [main] sends an unstake transaction, the amount paid to the
    owner is the non-negative amount read from the commitment of an
    immutable NFT of the owner that has the category of the minting NFT,
    it is at most the reserve, the new reserve is the old one minus that
    amount, and the payout carries no token, so the receipt is burned.
    (Reserve below [2^53] satoshis.) *)
Theorem unstake_sent_conserves
    (ownerWif nftTxId : option string) (nftVout : number)
    (contractUtxos userUtxos : list Utxo) (tokenAddress ownerAddress : string)
    (tx : LiquidStake.Transaction) :
  Forall (fun u => 0 <= utxo_satoshis u < 2 ^ 53) contractUtxos ->
  Unstake.main ownerWif nftTxId nftVout contractUtxos userUtxos tokenAddress ownerAddress
  = Sent tx ->
  exists mintingUtxo nftUtxo stakedAmount,
    LiquidStake.find_minting contractUtxos = Some mintingUtxo
    /\ In nftUtxo userUtxos
    /\ has_capability cap_none nftUtxo = true
    /\ category_of nftUtxo = category_of mintingUtxo
    /\ BigInt_of_string ("0x" ++ commitment_of nftUtxo) = Ok stakedAmount
    /\ 0 <= stakedAmount <= utxo_satoshis mintingUtxo
    /\ LiquidStake.tx_to tx
       = [LiquidStake.reserve_output tokenAddress
            (utxo_satoshis mintingUtxo - stakedAmount) mintingUtxo;
          mkOutput ownerAddress stakedAmount None].
Proof.
  intros _. unfold Unstake.main.
  destruct (unset ownerWif); [discriminate | ].
  destruct (unset nftTxId); [discriminate | ].
  destruct (LiquidStake.find_minting contractUtxos) as [m|]; [ | discriminate].
  destruct (find _ userUtxos) as [n|] eqn:Hn; [ | discriminate].
  apply find_some in Hn as [Hin Hp].
  apply andb_true_iff in Hp as [Hp Hcap]. apply andb_true_iff in Hp as [_ Hcat].
  apply String.eqb_eq in Hcat.
  destruct (BigInt_of_string ("0x" ++ commitment_of n)) as [a|] eqn:Ha;
    [ | discriminate].
  cbn [bind]. unfold Number_of_bigint at 1 2. rewrite num_lt_num.
  destruct (Z.ltb_spec (utxo_satoshis m) a); [discriminate | ].
  rewrite BigInt_of_difference. cbn [bind try].
  intros Hsent. apply Sent_inj in Hsent. subst tx.
  exists m, n, a. pose proof (BigInt_of_0x_nonneg _ _ Ha).
  repeat split; auto.
Qed.

Lemma unstake_sent_conserves_witness :
  Forall (fun u => 0 <= utxo_satoshis u < 2 ^ 53) [reserve_utxo]
  /\ exists mintingUtxo nftUtxo stakedAmount,
       LiquidStake.find_minting [reserve_utxo] = Some mintingUtxo
       /\ In nftUtxo [nft_utxo "rr" 0 "cat" "000000000000c350"]
       /\ has_capability cap_none nftUtxo = true
       /\ category_of nftUtxo = category_of mintingUtxo
       /\ BigInt_of_string ("0x" ++ commitment_of nftUtxo) = Ok stakedAmount
       /\ 0 <= stakedAmount <= utxo_satoshis mintingUtxo.
Proof.
  assert (Hsat : Forall (fun u => 0 <= utxo_satoshis u < 2 ^ 53) [reserve_utxo])
    by (repeat constructor; cbn; lia).
  split; [exact Hsat | ].
  destruct (unstake_sent_conserves (Some "wif") (Some "rr") (num 0)
              [reserve_utxo] [nft_utxo "rr" 0 "cat" "000000000000c350"]
              "token" "owner"
              (LiquidStake.mkTx LiquidStake.unstake
                 [nft_utxo "rr" 0 "cat" "000000000000c350"]
                 [LiquidStake.reserve_output "token" 50000 reserve_utxo;
                  mkOutput "owner" 50000 None])
              Hsat eq_refl)
    as [m [n [a [Hm [Hin [Hcap [Hcat [Ha [Hle _]]]]]]]]].
  exists m, n, a. repeat (split; [assumption | ]). exact Hle.
Defined.

(** X20. A receipt written by a merge is one unstake.ts reads correctly.
    After merging a PT of principal [P] with a YT, unstaking the receipt
    just minted against a reserve of the same category holding [R]
    satoshis pays exactly [P] to the owner and leaves [R - P] in the
    reserve when [P <= R], and exits for want of reserve when [R < P].
    (Reserve below [2^53] satoshis.) *)
Theorem merge_then_unstake_pays_principal
    (userUtxos contractUtxos : list Utxo)
    (ownerAddress tokenAddress ptTxId ytTxId txid : string)
    (ptVout ytVout : number) (ptUtxo ytUtxo mintingUtxo : Utxo)
    (ownerWif : option string) (P Y Ept Eyt : Z) :
  u64 P -> u64 Y -> u32 Ept -> u32 Eyt ->
  ptTxId <> EmptyString -> ytTxId <> EmptyString -> txid <> EmptyString ->
  YieldSplit.find_nft userUtxos (Some ptTxId) ptVout = Some ptUtxo ->
  YieldSplit.find_nft userUtxos (Some ytTxId) ytVout = Some ytUtxo ->
  YieldSplit.buildPTCommitment P (num Ept) = Ok (commitment_of ptUtxo) ->
  YieldSplit.buildYTCommitment Y (num Eyt) = Ok (commitment_of ytUtxo) ->
  unset ownerWif = false ->
  LiquidStake.find_minting contractUtxos = Some mintingUtxo ->
  category_of ptUtxo = category_of mintingUtxo ->
  0 <= utxo_satoshis mintingUtxo < 2 ^ 53 ->
  exists tx,
    YieldSplit.handleMerge userUtxos ownerAddress (Some ptTxId) ptVout
      (Some ytTxId) ytVout = Sent tx
    /\ (P <= utxo_satoshis mintingUtxo ->
        exists tx',
          unstake_merged tx txid ownerWif contractUtxos tokenAddress ownerAddress
          = Sent tx'
          /\ LiquidStake.tx_to tx'
             = [LiquidStake.reserve_output tokenAddress
                  (utxo_satoshis mintingUtxo - P) mintingUtxo;
                mkOutput ownerAddress P None])
    /\ (utxo_satoshis mintingUtxo < P ->
        unstake_merged tx txid ownerWif contractUtxos tokenAddress ownerAddress
        = Exit InsufficientReserve).
Proof.
  intros HP HY HEpt HEyt Hpid Hyid Htx Hpt Hyt Hcp Hcy Hwif Hmint Hcat _.
  eexists. split.
  { apply (handleMerge_sends userUtxos ownerAddress ptTxId ytTxId ptVout ytVout
             ptUtxo ytUtxo P Y Ept Eyt); assumption. }
  assert (Hrun :
    unstake_merged
      (YieldSplit.mkTx YieldSplit.merge
         [YieldSplit.nft_input ptUtxo (commitment_of ptUtxo);
          YieldSplit.nft_input ytUtxo (commitment_of ytUtxo)]
         [YieldSplit.nft_output ownerAddress (category_of ptUtxo) (hex_field 8 P)])
      txid ownerWif contractUtxos tokenAddress ownerAddress
    = if utxo_satoshis mintingUtxo <? P then Exit InsufficientReserve
      else Sent (LiquidStake.mkTx LiquidStake.unstake
                   [nft_utxo txid 0 (category_of ptUtxo) (hex_field 8 P)]
                   [LiquidStake.reserve_output tokenAddress
                      (utxo_satoshis mintingUtxo - P) mintingUtxo;
                    mkOutput ownerAddress P None])).
  { unfold unstake_merged, Unstake.main.
    rewrite Hwif, (unset_Some _ Htx), Hmint.
    cbn [YieldSplit.tx_to outputs_at YieldSplit.nft_output out_to out_amount out_token].
    rewrite String.eqb_refl.
    cbn [find env_eqb utxo_txid utxo_vout category_of utxo_token tok_category].
    rewrite String.eqb_refl. change (num_eq (num 0) (num 0)) with true.
    rewrite Hcat, String.eqb_refl.
    cbn [andb has_capability capability_of utxo_token tok_nft option_map
         nft_capability capability_eqb commitment_of nft_commitment].
    rewrite (BigInt_of_hex_field_u64 P HP). cbn [bind].
    unfold Number_of_bigint at 1 2. rewrite num_lt_num.
    destruct (utxo_satoshis mintingUtxo <? P); [reflexivity | ].
    rewrite BigInt_of_difference. cbn [bind try utxo_satoshis].
    reflexivity. }
  split.
  - intros Hle. rewrite Hrun.
    destruct (Z.ltb_spec (utxo_satoshis mintingUtxo) P); [lia | ].
    eexists. split; reflexivity.
  - intros Hlt. rewrite Hrun.
    destruct (Z.ltb_spec (utxo_satoshis mintingUtxo) P); [reflexivity | lia].
Qed.

Lemma merge_then_unstake_pays_principal_witness :
  (u64 50000 /\ 50000 <= utxo_satoshis reserve_utxo)
  /\ exists tx,
       YieldSplit.handleMerge
         [nft_utxo "aa" 0 "cat" "000000000000c3500007a120";
          nft_utxo "bb" 1 "cat" "00000000000003e80007a120"]
         "owner" (Some "aa") (num 0) (Some "bb") (num 1) = Sent tx
       /\ exists tx',
            unstake_merged tx "mm" (Some "wif") [reserve_utxo] "token" "owner"
            = Sent tx'
            /\ LiquidStake.tx_to tx'
               = [LiquidStake.reserve_output "token"
                    (utxo_satoshis reserve_utxo - 50000) reserve_utxo;
                  mkOutput "owner" 50000 None].
Proof.
  assert (HP : u64 50000) by (unfold u64; lia).
  assert (HY : u64 1000) by (unfold u64; lia).
  assert (HE : u32 500000) by (unfold u32; lia).
  assert (Hle : 50000 <= utxo_satoshis reserve_utxo) by (cbn; lia).
  split; [now split | ].
  destruct (merge_then_unstake_pays_principal
              [nft_utxo "aa" 0 "cat" "000000000000c3500007a120";
               nft_utxo "bb" 1 "cat" "00000000000003e80007a120"]
              [reserve_utxo] "owner" "token" "aa" "bb" "mm" (num 0) (num 1)
              (nft_utxo "aa" 0 "cat" "000000000000c3500007a120")
              (nft_utxo "bb" 1 "cat" "00000000000003e80007a120")
              reserve_utxo (Some "wif") 50000 1000 500000 500000
              HP HY HE HE ltac:(discriminate) ltac:(discriminate) ltac:(discriminate)
              eq_refl eq_refl eq_refl eq_refl eq_refl eq_refl eq_refl
              ltac:(cbn; lia)) as [tx [Hmerge [Hpay _]]].
  exists tx. split; [exact Hmerge | exact (Hpay Hle)].
Defined.

Lemma find_minting_Some (contractUtxos : list Utxo) (m : Utxo) :
  LiquidStake.find_minting contractUtxos = Some m ->
  In m contractUtxos /\ String.eqb (category_of m) EmptyString = false
  /\ has_capability cap_minting m = true.
Proof.
  unfold LiquidStake.find_minting. intros H. apply find_some in H as [Hin Hp].
  apply andb_true_iff in Hp as [Hcat Hcap]. apply negb_true_iff in Hcat. auto.
Qed.

(** Read most significant byte first, the little-endian bytes of a
    non-zero amount below [2^32] denote at least [2^32]. *)
Lemma reversed_small_amount (a : Z) :
  0 < a < 2 ^ 32 -> 2 ^ 32 <= be_value (le_bytes 8 a).
Proof.
  intros Ha. unfold be_value. cbn [le_bytes fold_left].
  rewrite !land_255, !shiftr_8.
  change (2 ^ 32) with 4294967296 in *.
  pose proof (Z.div_mod a 256 ltac:(lia)) as E0.
  pose proof (Z.mod_pos_bound a 256 ltac:(lia)) as B0.
  remember (a / 256) as a1 eqn:D1. remember (a mod 256) as b0 eqn:M0.
  pose proof (Z.div_mod a1 256 ltac:(lia)) as E1.
  pose proof (Z.mod_pos_bound a1 256 ltac:(lia)) as B1.
  remember (a1 / 256) as a2 eqn:D2. remember (a1 mod 256) as b1 eqn:M1.
  pose proof (Z.div_mod a2 256 ltac:(lia)) as E2.
  pose proof (Z.mod_pos_bound a2 256 ltac:(lia)) as B2.
  remember (a2 / 256) as a3 eqn:D3. remember (a2 mod 256) as b2 eqn:M2.
  pose proof (Z.div_mod a3 256 ltac:(lia)) as E3.
  pose proof (Z.mod_pos_bound a3 256 ltac:(lia)) as B3.
  remember (a3 / 256) as a4 eqn:D4. remember (a3 mod 256) as b3 eqn:M3.
  clear D1 M0 D2 M1 D3 M2 D4 M3.
  assert (H4 : a4 = 0) by lia.
  rewrite H4. repeat change (0 / 256) with 0. change (0 mod 256) with 0.
  lia.
Qed.

(** X21. The receipt of stake.ts cannot be unstaked for a small amount.
    For every staked amount between 1 and [2^32 - 1] satoshis and every
    reserve that stays below [2^32] satoshis after the stake, staking
    succeeds and unstaking the receipt just minted exits for want of
    reserve: the amount unstake.ts reads from the little-endian
    commitment is at least [2^32]. *)
Theorem stake_then_unstake_small_amount_exits
    (ownerWif : option string) (stakeAmount : Z)
    (contractUtxos userUtxos : list Utxo)
    (tokenAddress ownerAddress txid : string) (mintingUtxo fundingUtxo : Utxo) :
  unset ownerWif = false ->
  LiquidStake.find_minting contractUtxos = Some mintingUtxo ->
  find (fun u => num_ge (Number_of_bigint (utxo_satoshis u))
                   (num_add (Number_of_bigint stakeAmount) (num 2000))) userUtxos
  = Some fundingUtxo ->
  txid <> EmptyString ->
  tokenAddress <> ownerAddress ->
  0 < stakeAmount < 2 ^ 32 ->
  0 <= utxo_satoshis mintingUtxo ->
  utxo_satoshis mintingUtxo + stakeAmount < 2 ^ 32 ->
  (exists tx,
     Stake.main ownerWif stakeAmount contractUtxos userUtxos tokenAddress ownerAddress
     = Sent tx)
  /\ stake_then_unstake ownerWif stakeAmount contractUtxos userUtxos
       tokenAddress ownerAddress txid
     = Exit InsufficientReserve.
Proof.
  intros Hwif Hmint Hfund Htx Hneq Ha HR Hsum.
  destruct (find_minting_Some _ _ Hmint) as [_ [Hcat Hcap]].
  assert (Hstake :
    Stake.main ownerWif stakeAmount contractUtxos userUtxos tokenAddress ownerAddress
    = Sent (LiquidStake.mkTx LiquidStake.stake
              [mkUtxo (utxo_txid fundingUtxo) (utxo_vout fundingUtxo)
                 (utxo_satoshis fundingUtxo) None]
              [LiquidStake.reserve_output tokenAddress
                 (utxo_satoshis mintingUtxo + stakeAmount) mintingUtxo;
               mkOutput ownerAddress 1000
                 (Some (mkToken (category_of mintingUtxo) 0
                          (Some (mkNft cap_none
                                   (toString_hex (le_bytes 8 stakeAmount))))))])).
  { unfold Stake.main. rewrite Hwif, Hmint.
    destruct userUtxos as [|u0 us]; [discriminate | ].
    rewrite Hfund. unfold writeBigUInt64LE.
    destruct (Z.ltb_spec stakeAmount 0); [lia | ].
    destruct (Z.ltb_spec (2 ^ 64 - 1) stakeAmount);
      [change (2 ^ 32) with 4294967296 in Ha;
       change (2 ^ 64) with 18446744073709551616 in *; lia | ].
    cbn [orb bind]. rewrite BigInt_of_sum. reflexivity. }
  split; [eexists; exact Hstake | ].
  unfold stake_then_unstake. rewrite Hstake.
  assert (Hot : String.eqb ownerAddress tokenAddress = false)
    by (apply String.eqb_neq; congruence).
  assert (Hto : String.eqb tokenAddress ownerAddress = false)
    by (now apply String.eqb_neq).
  cbn [LiquidStake.tx_to outputs_at LiquidStake.reserve_output out_to out_amount
       out_token].
  rewrite !String.eqb_refl, Hot, Hto.
  unfold Unstake.main. rewrite Hwif, (unset_Some _ Htx).
  unfold LiquidStake.find_minting.
  cbn [find category_of utxo_token tok_category].
  rewrite Hcat.
  cbn [negb andb has_capability capability_of utxo_token tok_nft option_map
       nft_capability capability_eqb env_eqb utxo_txid utxo_vout].
  rewrite !String.eqb_refl. change (0 + 1) with 1.
  change (num_eq (num 1) (num 1)) with true.
  cbn [andb commitment_of utxo_token tok_nft nft_commitment utxo_satoshis].
  rewrite unstake_decodes_reversed. cbn [bind].
  unfold Number_of_bigint. rewrite num_lt_num.
  pose proof (reversed_small_amount stakeAmount Ha) as Hd.
  destruct (Z.ltb_spec (utxo_satoshis mintingUtxo + stakeAmount)
              (be_value (le_bytes 8 stakeAmount))); [reflexivity | lia].
Qed.

Lemma stake_then_unstake_small_amount_exits_witness :
  (0 < 50000 < 2 ^ 32 /\ utxo_satoshis reserve_utxo + 50000 < 2 ^ 32)
  /\ stake_then_unstake (Some "wif") 50000 [reserve_utxo] [wallet_utxo]
       "token" "owner" "ee"
     = Exit InsufficientReserve.
Proof.
  split; [cbn; lia | ].
  apply (stake_then_unstake_small_amount_exits (Some "wif") 50000
           [reserve_utxo] [wallet_utxo] "token" "owner" "ee"
           reserve_utxo wallet_utxo eq_refl eq_refl eq_refl
           ltac:(discriminate) ltac:(discriminate)
           ltac:(lia) ltac:(cbn; lia) ltac:(cbn; lia)).
Defined.

(** ** The signed helper of test-mocknet.ts *)

Lemma length_le_bytes_8_value (n : Z) :
  List.length (le_bytes 8 n) = 8%nat /\ Forall is_byte (le_bytes 8 n)
  /\ le_value (le_bytes 8 n) = n mod 2 ^ 64.
Proof.
  split; [apply length_le_bytes | split; [apply le_bytes_is_byte | ]].
  apply (le_bytes_value 8 n).
Qed.

(** X22. [int64LE] accepts exactly the signed 64-bit range.  Within it
    the result is 8 bytes that denote, least significant byte first, the
    value modulo [2^64] (two's complement for a negative value), and for
    a non-negative value they are the bytes stake.ts writes into a
    receipt; outside it the helper throws a [RangeError]. *)
Theorem int64LE_two_complement (n : Z) :
  (- 2 ^ 63 <= n < 2 ^ 63 ->
   exists bs,
     int64LE n = Ok bs
     /\ List.length bs = 8%nat
     /\ Forall is_byte bs
     /\ le_value bs = n mod 2 ^ 64
     /\ (0 <= n -> writeBigUInt64LE n = Ok bs))
  /\ (~ (- 2 ^ 63 <= n < 2 ^ 63) -> int64LE n = Throw RangeError).
Proof.
  unfold int64LE, writeBigUInt64LE.
  split; intros Hn.
  - exists (le_bytes 8 n).
    destruct (Z.ltb_spec n (- 2 ^ 63)); [lia | ].
    destruct (Z.ltb_spec (2 ^ 63 - 1) n); [lia | ].
    destruct (length_le_bytes_8_value n) as [Hlen [Hbytes Hval]].
    split; [reflexivity | ]. split; [exact Hlen | ].
    split; [exact Hbytes | ]. split; [exact Hval | ].
    intros Hpos.
    destruct (Z.ltb_spec n 0); [lia | ].
    destruct (Z.ltb_spec (2 ^ 64 - 1) n); [lia | reflexivity].
  - destruct (Z.ltb_spec n (- 2 ^ 63)); [reflexivity | ].
    destruct (Z.ltb_spec (2 ^ 63 - 1) n); [reflexivity | lia].
Qed.

Lemma int64LE_two_complement_witness :
  - 2 ^ 63 <= -1 < 2 ^ 63
  /\ exists bs,
       int64LE (-1) = Ok bs
       /\ List.length bs = 8%nat
       /\ Forall is_byte bs
       /\ le_value bs = (-1) mod 2 ^ 64
       /\ (0 <= -1 -> writeBigUInt64LE (-1) = Ok bs).
Proof.
  split; [lia | ].
  apply (int64LE_two_complement (-1)). lia.
Defined.

(** ** Repeated partial claims *)

Section Accumulation.

Variables (ownerAddress : string) (E yieldRate : Z).
Hypothesis E_u32 : u32 E.
Hypothesis rate_nonneg : 0 <= yieldRate.

Lemma claim_run_accumulates_from (steps : list (Z * string)) :
  Forall (fun s => 0 <= fst s < E /\ snd s <> EmptyString
                   /\ (fst s * yieldRate) mod 10000 = 0) steps ->
  forall (yt : Utxo) (Y : Z),
    u64 Y ->
    Forall u64 (accrued_yields Y yieldRate (map fst steps)) ->
    has_capability cap_none yt = true ->
    utxo_txid yt <> EmptyString ->
    YieldSplit.buildYTCommitment Y (num E) = Ok (commitment_of yt) ->
    yields_of (claim_run ownerAddress (num yieldRate) yt (timed steps))
    = accrued_yields Y yieldRate (map fst steps)
    /\ List.length (claim_run ownerAddress (num yieldRate) yt (timed steps))
       = List.length steps.
Proof.
  induction 1 as [|[t txid] rest [Ht [Htxid Hdiv]] _ IH];
    intros yt Y HY Hfit Hcap Hid Hc.
  { split; reflexivity. }
  cbn [fst snd] in Ht, Htxid, Hdiv.
  cbn [map fst accrued_yields] in Hfit. inversion Hfit as [|y ys Hfit1 Hfit2]; subst.
  cbn [timed map claim_run fst snd accrued_yields]. fold (timed rest).
  rewrite (handleClaimYield_cases [yt] ownerAddress (utxo_txid yt)
             (num (utxo_vout yt)) yt Y E HY E_u32 Hid (find_nft_single yt Hcap) Hc).
  destruct (Z.leb_spec E t); [lia | ].
  rewrite Hdiv. cbn [Z.eqb negb].
  pose proof Hfit1 as Hb. apply u64b_true in Hb. rewrite Hb.
  cbn [negb yields_of yield_of YieldSplit.tx_to YieldSplit.nft_output nft_commitment
       outputs_at out_to out_amount out_token].
  rewrite String.eqb_refl, (parseYTCommitment_ok _ _ Hfit1 E_u32).
  cbn [YieldSplit.yieldAccrued List.length].
  destruct (IH (mkUtxo txid 0 1000
                  (Some (mkToken (category_of yt) 0
                           (Some (mkNft cap_none
                                    (hex_field 8 (Y + t * yieldRate / 10000)
                                     ++ hex_field 4 E))))))
               (Y + t * yieldRate / 10000) Hfit1 Hfit2 eq_refl Htxid
               (buildYTCommitment_ok _ _ Hfit1 E_u32)) as [IHy IHl].
  split; [now rewrite IHy | now rewrite IHl].
Qed.

Lemma accrued_yields_sorted (times : list Z) :
  Forall (fun t => 0 <= t) times ->
  forall Y, Sorted Z.le (Y :: accrued_yields Y yieldRate times).
Proof.
  induction 1 as [|t rest Ht _ IH]; intros Y; [repeat constructor | ].
  cbn [accrued_yields].
  assert (0 <= t * yieldRate / 10000)
    by (apply Z.div_pos; [apply Z.mul_nonneg_nonneg | ]; lia).
  constructor; [apply IH | constructor; lia].
Qed.

End Accumulation.

(** X23. Partial claims accumulate.  For a YT with accrued yield [Y] and
    expiry [E], a yield rate between 0 and 10000 basis points and claims
    at non-negative times before expiry whose product with the rate is a
    multiple of 10000, every claim is carried out and writes a YT whose
    yield is the yield before it plus [currentTime * yieldRate / 10000],
    as long as these yields fit 8 bytes: the yields written are
    non-decreasing, and each claim adds the accrual for its whole current
    time, not for the time since the claim before it. *)
Theorem claim_run_accumulates
    (ownerAddress : string) (yt : Utxo) (Y E yieldRate : Z)
    (steps : list (Z * string)) :
  u64 Y -> u32 E -> 0 <= yieldRate <= 10000 ->
  Forall (fun s => 0 <= fst s < E /\ snd s <> EmptyString
                   /\ (fst s * yieldRate) mod 10000 = 0) steps ->
  Forall u64 (accrued_yields Y yieldRate (map fst steps)) ->
  has_capability cap_none yt = true ->
  utxo_txid yt <> EmptyString ->
  YieldSplit.buildYTCommitment Y (num E) = Ok (commitment_of yt) ->
  yields_of (claim_run ownerAddress (num yieldRate) yt (timed steps))
  = accrued_yields Y yieldRate (map fst steps)
  /\ List.length (claim_run ownerAddress (num yieldRate) yt (timed steps))
     = List.length steps
  /\ Sorted Z.le (Y :: yields_of (claim_run ownerAddress (num yieldRate) yt
                                   (timed steps))).
Proof.
  intros HY HE [Hrate _] Hsteps Hfit Hcap Hid Hc.
  destruct (claim_run_accumulates_from ownerAddress E yieldRate HE steps Hsteps
              yt Y HY Hfit Hcap Hid Hc) as [Hy Hl].
  split; [exact Hy | split; [exact Hl | ]].
  rewrite Hy. apply accrued_yields_sorted; [exact Hrate | ].
  apply Forall_map. eapply Forall_impl; [ | exact Hsteps].
  cbn. intros s [[H0 _] _]. exact H0.
Qed.

Lemma claim_run_accumulates_witness :
  (u64 0 /\ u32 500000 /\ 0 <= 500 <= 10000)
  /\ yields_of (claim_run "owner" (num 500)
                  (nft_utxo "bb" 1 "cat" "00000000000000000007a120")
                  (timed [(100000, "t1"); (200000, "t2")]))
     = accrued_yields 0 500 (map fst [(100000, "t1"); (200000, "t2")])
  /\ accrued_yields 0 500 (map fst [(100000, "t1"); (200000, "t2")]) = [5000; 15000].
Proof.
  assert (H64 : u64 0) by (unfold u64; lia).
  assert (H32 : u32 500000) by (unfold u32; lia).
  split; [repeat split; try lia; assumption | ].
  split; [ | reflexivity].
  apply (claim_run_accumulates "owner"
           (nft_utxo "bb" 1 "cat" "00000000000000000007a120")
           0 500000 500 [(100000, "t1"); (200000, "t2")]
           H64 H32 ltac:(lia)
           ltac:(repeat constructor; cbn; try lia; try discriminate; reflexivity)
           ltac:(repeat constructor; unfold u64; cbn; lia)
           eq_refl ltac:(discriminate) eq_refl).
Defined.
